(** * DICOM segmentation decoding (dwv): position utilities, validator,
      segment and frame readers, and the mask factory.

    A shallow embedding of the JavaScript of [dwv.dicom.*] and
    [dwv.image.MaskFactory.prototype.create].

    Conventions of the embedding.
    - A JavaScript value is a [value]: undefined, null, a number, a string,
      an array or an object (an association list of properties, in insertion
      order).  A DICOM data element is an object with a [value] array; a
      sequence item is an object keyed by tag ("x00620004", ...).
    - A JavaScript number is a [jsnum]: an integer or NaN.  Integers are the
      doubles on which [-], [*], [Math.abs], the comparisons and [===] are
      exact; fractions, infinities and the negative zero are not represented,
      and numerals are read as decimal integers.
    - A function that can throw returns a [result]; [OutOfFuel] is the
      embedding's own outcome for a loop cut short by its fuel.
    - The only objects the code writes in place are the position arrays of
      the per-frame items and the output buffer; the functions that write
      them return the written object next to their result. *)

From Stdlib Require Import ZArith String Ascii List Lia.
From Stdlib Require Import DecimalString DecimalZ DecimalPos.
From stdpp Require Import base list strings sorting.

#[local] Set Warnings "-register-all".
#[local] Open Scope Z_scope.

(** ** JavaScript values *)

Module JS.

Inductive jsnum :=
| Int (z : Z)
| NaN.

Inductive value :=
| VUndef
| VNull
| VNum (n : jsnum)
| VStr (s : string)
| VArr (l : list value)
| VObj (fields : list (string * value)).

Definition VInt (z : Z) : value := VNum (Int z).

(** What a [throw] carries.  [Error msg] is [new Error(msg)]; the message of
    [BufferFramesError] ends in a quotient, so its three numbers are kept
    instead of the text. *)
Inductive exn :=
| Error (msg : string)
| BufferFramesError (frames : jsnum) (bufferLength : Z) (sliceSize : jsnum)
| TypeError
| RangeError.

Inductive result (A : Type) :=
| Ok (a : A)
| Throw (e : exn)
| OutOfFuel.
Arguments Ok {A} a.
Arguments Throw {A} e.
Arguments OutOfFuel {A}.

Definition bind {A B} (m : result A) (f : A -> result B) : result B :=
  match m with
  | Ok a => f a
  | Throw e => Throw e
  | OutOfFuel => OutOfFuel
  end.

#[global] Instance result_ret : MRet result := @Ok.
#[global] Instance result_bind : MBind result := fun A B f m => bind m f.

(** *** Numbers *)

Definition number_eqb (a b : jsnum) : bool :=
  match a, b with
  | Int x, Int y => x =? y
  | _, _ => false
  end.

Definition num_sub (a b : jsnum) : jsnum :=
  match a, b with
  | Int x, Int y => Int (x - y)
  | _, _ => NaN
  end.

Definition num_add (a b : jsnum) : jsnum :=
  match a, b with
  | Int x, Int y => Int (x + y)
  | _, _ => NaN
  end.

Definition num_mul (a b : jsnum) : jsnum :=
  match a, b with
  | Int x, Int y => Int (x * y)
  | _, _ => NaN
  end.

Definition num_abs (a : jsnum) : jsnum :=
  match a with
  | Int x => Int (Z.abs x)
  | NaN => NaN
  end.

(** [a >= b] and [a < b]: false as soon as one side is NaN. *)
Definition num_geb (a b : jsnum) : bool :=
  match a, b with
  | Int x, Int y => y <=? x
  | _, _ => false
  end.

Definition num_ltb (a b : jsnum) : bool :=
  match a, b with
  | Int x, Int y => x <? y
  | _, _ => false
  end.

(** *** Reading numerals *)

Definition digit_of (c : ascii) : option Z :=
  let n := Z.of_nat (nat_of_ascii c) in
  if (48 <=? n) && (n <=? 57) then Some (n - 48) else None.

Definition is_space (c : ascii) : bool :=
  let n := nat_of_ascii c in
  (n =? 32)%nat || ((9 <=? n)%nat && (n <=? 13)%nat).

Fixpoint skip_spaces (s : string) : string :=
  match s with
  | String c s' => if is_space c then skip_spaces s' else s
  | EmptyString => s
  end.

(** The longest run of digits at the head of [s], read in base ten on top
    of [acc], and what follows it. *)
Fixpoint read_digits (s : string) (acc : option Z) : option Z * string :=
  match s with
  | String c s' =>
      match digit_of c with
      | Some d => read_digits s' (Some (10 * default 0 acc + d))
      | None => (acc, s)
      end
  | EmptyString => (acc, s)
  end.

Definition read_signed (s : string) : option Z * string :=
  match s with
  | String "-" s' =>
      let '(r, rest) := read_digits s' None in (Z.opp <$> r, rest)
  | String "+" s' => read_digits s' None
  | _ => read_digits s None
  end.

(** [parseInt(s, 10)] and, on integer numerals, [parseFloat(s)]: leading
    white space, a sign, digits; what follows the digits is ignored. *)
Definition parse_prefix (s : string) : jsnum :=
  match fst (read_signed (skip_spaces s)) with
  | Some z => Int z
  | None => NaN
  end.

(** [Number(s)]: the whole string is a numeral, or it is empty. *)
Definition string_to_number (s : string) : jsnum :=
  match skip_spaces s with
  | EmptyString => Int 0
  | s' =>
      match read_signed s' with
      | (Some z, rest) =>
          match skip_spaces rest with EmptyString => Int z | _ => NaN end
      | (None, _) => NaN
      end
  end.

(** *** Printing *)

Definition string_of_Z (z : Z) : string :=
  NilZero.string_of_int (Z.to_int z).

Definition number_to_string (n : jsnum) : string :=
  match n with
  | Int z => string_of_Z z
  | NaN => "NaN"
  end.

Fixpoint join (sep : string) (l : list string) : string :=
  match l with
  | [] => ""
  | [s] => s
  | s :: l' => s +:+ sep +:+ join sep l'
  end.

(** [String(v)], as string concatenation applies it. *)
Fixpoint to_string (v : value) : string :=
  match v with
  | VUndef => "undefined"
  | VNull => "null"
  | VNum n => number_to_string n
  | VStr s => s
  | VArr l =>
      join "," (map (fun x => match x with
                              | VUndef | VNull => ""
                              | _ => to_string x
                              end) l)
  | VObj _ => "[object Object]"
  end.

(** *** Conversions and tests *)

(** [Number(v)] *)
Definition to_number (v : value) : jsnum :=
  match v with
  | VUndef => NaN
  | VNull => Int 0
  | VNum n => n
  | VStr s => string_to_number s
  | VArr _ => string_to_number (to_string v)
  | VObj _ => NaN
  end.

(** [!!v] *)
Definition truthy (v : value) : bool :=
  match v with
  | VUndef | VNull => false
  | VNum (Int z) => negb (z =? 0)
  | VNum NaN => false
  | VStr s => negb (String.eqb s "")
  | VArr _ | VObj _ => true
  end.

(** [typeof v !== 'undefined'] *)
Definition defined (v : value) : bool :=
  match v with
  | VUndef => false
  | _ => true
  end.

(** [a === b].  Two arrays or two objects are equal when they are one
    object; the values compared here come from separate reads, so they are
    taken as distinct. *)
Definition strict_eq (a b : value) : bool :=
  match a, b with
  | VUndef, VUndef => true
  | VNull, VNull => true
  | VNum x, VNum y => number_eqb x y
  | VStr x, VStr y => String.eqb x y
  | _, _ => false
  end.

Definition parseFloat (v : value) : jsnum :=
  match v with
  | VNum n => n
  | _ => parse_prefix (to_string v)
  end.

Definition parseInt (v : value) : jsnum := parseFloat v.

(** *** Properties and indices *)

Fixpoint lookup_field (k : string) (fs : list (string * value)) : value :=
  match fs with
  | [] => VUndef
  | (k', v) :: fs' => if String.eqb k k' then v else lookup_field k fs'
  end.

Fixpoint set_field (k : string) (v : value) (fs : list (string * value))
  : list (string * value) :=
  match fs with
  | [] => [(k, v)]
  | (k', v') :: fs' =>
      if String.eqb k k' then (k, v) :: fs' else (k', v') :: set_field k v fs'
  end.

Definition str_length (s : string) : Z := Z.of_nat (String.length s).

(** [v.k] *)
Definition get (v : value) (k : string) : result value :=
  match v with
  | VUndef | VNull => Throw TypeError
  | VObj fs => Ok (lookup_field k fs)
  | VArr l =>
      if String.eqb k "length" then Ok (VInt (Z.of_nat (length l)))
      else Ok VUndef
  | VStr s =>
      if String.eqb k "length" then Ok (VInt (str_length s)) else Ok VUndef
  | VNum _ => Ok VUndef
  end.

Definition nth_value (l : list value) (i : Z) : value :=
  if i <? 0 then VUndef else default VUndef (l !! Z.to_nat i).

(** [v[i]] for an integer [i] *)
Definition index (v : value) (i : Z) : result value :=
  match v with
  | VUndef | VNull => Throw TypeError
  | VArr l => Ok (nth_value l i)
  | VObj fs => Ok (lookup_field (string_of_Z i) fs)
  | VStr s =>
      Ok (if i <? 0 then VUndef
          else match String.get (Z.to_nat i) s with
               | Some c => VStr (String c EmptyString)
               | None => VUndef
               end)
  | VNum _ => Ok VUndef
  end.

(** [arr[n]] for a number [n]: NaN names no element. *)
Definition nth_number (l : list value) (n : jsnum) : value :=
  match n with
  | Int i => nth_value l i
  | NaN => VUndef
  end.

(** [arr[n] = v] on an [Array]: an index past the end extends the array
    with holes, a negative or NaN index adds a property and leaves the
    elements as they are. *)
Definition array_set (l : list value) (n : jsnum) (v : value) : list value :=
  match n with
  | Int i =>
      if i <? 0 then l
      else if i <? Z.of_nat (length l) then <[Z.to_nat i := v]> l
      else l ++ replicate (Z.to_nat i - length l) VUndef ++ [v]
  | NaN => l
  end.

(** [new Array(n)] followed by [fill(0)] *)
Definition new_filled_array (n : jsnum) : result (list value) :=
  match n with
  | Int z =>
      if (0 <=? z) && (z <? 2 ^ 32) then Ok (replicate (Z.to_nat z) (VInt 0))
      else Throw RangeError
  | NaN => Throw RangeError
  end.

(** [v.k = x] and [v[i] = x]: a write to a primitive is dropped. *)
Definition set_prop (v : value) (k : string) (x : value) : value :=
  match v with
  | VObj fs => VObj (set_field k x fs)
  | _ => v
  end.

Definition set_index (v : value) (i : Z) (x : value) : value :=
  match v with
  | VArr l => VArr (array_set l (Int i) x)
  | VObj fs => VObj (set_field (string_of_Z i) x fs)
  | _ => v
  end.

(** *** JSON.stringify *)

Definition dquote : ascii := ascii_of_nat 34.
Definition backslash : ascii := ascii_of_nat 92.

Definition hex_digit (n : nat) : ascii :=
  ascii_of_nat (if (n <? 10)%nat then 48 + n else 87 + n).

Definition escape_char (c : ascii) : string :=
  let n := nat_of_ascii c in
  if Ascii.eqb c dquote then String backslash (String dquote "")
  else if Ascii.eqb c backslash then String backslash (String backslash "")
  else if (n =? 8)%nat then "\b"
  else if (n =? 9)%nat then "\t"
  else if (n =? 10)%nat then "\n"
  else if (n =? 12)%nat then "\f"
  else if (n =? 13)%nat then "\r"
  else if (n <? 32)%nat then
    "\u00" +:+ String (hex_digit (n / 16)) (String (hex_digit (n mod 16)) "")
  else String c "".

Fixpoint escape (s : string) : string :=
  match s with
  | String c s' => escape_char c +:+ escape s'
  | EmptyString => ""
  end.

Definition quote (s : string) : string :=
  String dquote (escape s +:+ String dquote "").

(** [JSON.stringify(v)]; [None] is the [undefined] it returns for
    [undefined].  In an array [undefined] and NaN print as null, in an
    object an undefined property is left out. *)
Fixpoint stringify (v : value) : option string :=
  match v with
  | VUndef => None
  | VNull => Some "null"
  | VNum (Int z) => Some (string_of_Z z)
  | VNum NaN => Some "null"
  | VStr s => Some (quote s)
  | VArr l =>
      Some ("[" +:+ join "," (map (fun x => default "null" (stringify x)) l)
            +:+ "]")
  | VObj fs =>
      Some ("{" +:+
            join "," (omap (fun p => (fun s => quote (fst p) +:+ ":" +:+ s)
                                       <$> stringify (snd p)) fs)
            +:+ "}")
  end.

(** *** Loops over an array-like value *)

(** [for (i = 0; i < arr.length; ++i) f(arr[i])], collecting what [f]
    returns. *)
Fixpoint for_each_from {A} (f : value -> result A) (arr : value)
    (i : Z) (n : nat) : result (list A) :=
  match n with
  | O => Ok []
  | S n' =>
      x ← index arr i;
      a ← f x;
      r ← for_each_from f arr (i + 1) n';
      Ok (a :: r)
  end.

Definition trip_count (len : value) : nat :=
  match to_number len with
  | Int z => Z.to_nat z
  | NaN => O
  end.

Definition for_each {A} (f : value -> result A) (arr : value)
  : result (list A) :=
  len ← get arr "length";
  for_each_from f arr 0 (trip_count len).

End JS.

(** ** dwv.dicom *)

Module Dicom.
Import JS.

(** The collaborators the decoder calls and this repository does not
    define: the string cleaner and the transfer-syntax table of
    [dwv.dicom], the colour conversions of [dwv.utils], and the image size
    query of the element accessor. *)
Class Env := {
  cleanString : value -> value;
  getSyntaxDecompressionName : value -> option string;
  uintLabToLab : value -> value;
  cielabToSrgb : value -> value;
  getImageSize : value -> result value
}.

(** Modelled from the spec: the element accessor
    [getFromKey(tag, asSequence?) -> value | sequence-of-items | undefined]
    over the root object of the element tree: the element's value array
    when asked as a sequence, its single value otherwise, undefined when
    the tag is absent. *)
Definition getFromKey (dicomElements : value) (key : string)
    (asArray : bool) : value :=
  match dicomElements with
  | VObj fs =>
      match lookup_field key fs with
      | VObj el =>
          match lookup_field "value" el with
          | VArr [x] => if asArray then VArr [x] else x
          | v => v
          end
      | _ => VUndef
      end
  | _ => VUndef
  end.

(** Modelled from the spec: [dwv.utils.isEqualRgb], the component-wise
    comparison of two RGB triples. *)
Definition isEqualRgb (c1 c2 : value) : bool :=
  match c1, c2 with
  | VObj f1, VObj f2 =>
      strict_eq (lookup_field "r" f1) (lookup_field "r" f2)
      && strict_eq (lookup_field "g" f1) (lookup_field "g" f2)
      && strict_eq (lookup_field "b" f1) (lookup_field "b" f2)
  | _, _ => false
  end.

(** Modelled from the spec: [dwv.image.Spacing], an ordered list of
    numbers with component-wise equality.  A variable that holds a spacing
    is undefined, null or the object. *)
Inductive spacing_ref :=
| SUndef
| SNull
| Spacing (values : list jsnum).

Definition spacing_get (values : list jsnum) (i : nat) : value :=
  match values !! i with
  | Some n => VNum n
  | None => VUndef
  end.

Fixpoint spacing_values_eqb (a b : list jsnum) : bool :=
  match a, b with
  | [], [] => true
  | x :: a', y :: b' => number_eqb x y && spacing_values_eqb a' b'
  | _, _ => false
  end.

(** [lhs.equals(rhs)] *)
Definition spacing_equals (lhs : list jsnum) (rhs : spacing_ref) : bool :=
  match rhs with
  | Spacing r => spacing_values_eqb lhs r
  | _ => false
  end.

Record segment := {
  number : value;
  label : value;
  algorithmType : value;
  algorithmName : value;
  displayValue : value
}.

Record dimensionIndex := {
  organization : value;
  pointer : value;
  index_label : value
}.

Record dimension := {
  organizations : list value;
  indices : list dimensionIndex
}.

Record sourceImage := {
  referencedSOPClassUID : value;
  referencedSOPInstanceUID : value
}.

Record frameInfo := {
  dimIndex : value;
  imagePosPat : value;
  derivationImages : list (list sourceImage);
  refSegmentNumber : value;
  imageOrientationPatient : value;
  spacing : spacing_ref
}.

(** An absent property of a record reads as undefined ([VUndef], [SUndef]). *)

(** A segment argument of the comparisons: undefined, null or a record. *)
Inductive segment_ref :=
| SegUndef
| SegNull
| Seg (s : segment).

(** [item.key.value] and [item.key.value[0]] *)
Definition element_value (item : value) (key : string) : result value :=
  el ← get item key;
  get el "value".

Definition element_value0 (item : value) (key : string) : result value :=
  v ← element_value item key;
  index v 0.

(** *** Position utilities *)

Definition equalPosPat (pos1 pos2 : value) : bool :=
  bool_decide (stringify pos1 = stringify pos2).

(** The loop of [comparePosPat] with [idx] axes left to visit, the last of
    them first; [diff] is the last difference computed. *)
Fixpoint comparePosPat_from (pos1 pos2 : value) (idx : nat) (diff : value)
  : result value :=
  match idx with
  | O => Ok diff
  | S idx' =>
      b ← index pos2 (Z.of_nat idx');
      a ← index pos1 (Z.of_nat idx');
      let d := num_sub (to_number b) (to_number a) in
      if negb (number_eqb d (Int 0)) then Ok (VNum d)
      else comparePosPat_from pos1 pos2 idx' (VNum d)
  end.

Definition comparePosPat (pos1 pos2 : value) : result value :=
  posLen ← get pos1 "length";
  comparePosPat_from pos1 pos2 (trip_count posLen) VNull.

(** *** Array.prototype.sort

    The sort of the language, as a stable insertion sort: [x] goes before
    [y] when the comparison function returns a number that is not
    positive (NaN counts as zero); undefined elements go last and are not
    compared. *)
Definition not_after (c : value) : bool :=
  match to_number c with
  | Int z => z <=? 0
  | NaN => true
  end.

Fixpoint sort_insert (cmp : value -> value -> result value) (x : value)
    (l : list value) : result (list value) :=
  match l with
  | [] => Ok [x]
  | y :: l' =>
      c ← cmp x y;
      if not_after c then Ok (x :: y :: l')
      else r ← sort_insert cmp x l'; Ok (y :: r)
  end.

Fixpoint sort_defined (cmp : value -> value -> result value)
    (l : list value) : result (list value) :=
  match l with
  | [] => Ok []
  | x :: l' => r ← sort_defined cmp l'; sort_insert cmp x r
  end.

Definition array_sort (cmp : value -> value -> result value)
    (l : list value) : result (list value) :=
  r ← sort_defined cmp (filter (fun v => defined v = true) l);
  Ok (r ++ filter (fun v => defined v = false) l).

Section WithEnv.
Context `{Env}.

(** *** Validator *)

Definition checkDicomSeg (rootElement : value) : result unit :=
  (* Transfer Syntax *)
  let syntax := cleanString (getFromKey rootElement "x00020010" false) in
  match getSyntaxDecompressionName syntax with
  | Some algoName =>
      Throw (Error ("Unsupported compressed segmentation: " +:+ algoName))
  | None =>
      (* Segmentation Type (required) *)
      let segmentationType := getFromKey rootElement "x00620001" false in
      if negb (truthy segmentationType) then
        Throw (Error "Missing or empty DICOM segmentation type")
      else
        let segmentationType := cleanString segmentationType in
        if negb (strict_eq segmentationType (VStr "BINARY")) then
          Throw (Error ("Unsupported segmentation type: "
                        +:+ to_string segmentationType))
        else
          (* Dimension Organization Type (optional) *)
          let dimOrgType := getFromKey rootElement "x00209311" false in
          if truthy dimOrgType then
            let dimOrgType := cleanString dimOrgType in
            if negb (strict_eq dimOrgType (VStr "3D")) then
              Throw (Error ("Unsupported dimension organization type: "
                            +:+ to_string dimOrgType))
            else Ok tt
          else Ok tt
  end.

(** *** Dimension reader *)

Definition getDimensionIndex (org0 : value) (item : value)
  : result dimensionIndex :=
  v ← element_value0 item "x00209164";
  let indexOrg := cleanString v in
  if negb (strict_eq indexOrg org0) then
    Throw (Error
      "Dimension Index Sequence contains a unknown Dimension Organization")
  else
    p ← element_value0 item "x00209165";
    let indexPointer := cleanString p in
    l ← get item "x00209421";
    if defined l then
      lv ← element_value0 item "x00209421";
      Ok {| organization := indexOrg; pointer := indexPointer;
            index_label := cleanString lv |}
    else
      Ok {| organization := indexOrg; pointer := indexPointer;
            index_label := VUndef |}.

Definition getDimensionOrganization (rootElement : value)
  : result dimension :=
  let orgSq := getFromKey rootElement "x00209221" true in
  if negb (truthy orgSq) then
    Throw (Error "Unsupported dimension organization sequence length")
  else
    len ← get orgSq "length";
    if negb (strict_eq len (VInt 1)) then
      Throw (Error "Unsupported dimension organization sequence length")
    else
      item0 ← index orgSq 0;
      uid ← element_value0 item0 "x00209164";
      let org0 := cleanString uid in
      let indexSq := getFromKey rootElement "x00209222" true in
      if truthy indexSq then
        ilen ← get indexSq "length";
        if negb (strict_eq ilen (VInt 2)) then
          Throw (Error "Unsupported dimension index sequence length")
        else
          ixs ← for_each (getDimensionIndex org0) indexSq;
          match ixs !! 1%nat with
          | None => Throw TypeError
          | Some last =>
              if negb (strict_eq (pointer last) (VStr "(0020,0032)")) then
                Throw (Error "Unsupported non image position as last index")
              else Ok {| organizations := [org0]; indices := ixs |}
          end
      else Ok {| organizations := [org0]; indices := [] |}.

(** *** Segment reader *)

Definition getSegment (element : value) : result segment :=
  n ← element_value0 element "x00620004";
  l ← element_value0 element "x00620005";
  t ← element_value0 element "x00620008";
  (* algorithmName -> SegmentAlgorithmName *)
  an ← get element "x00620009";
  name ← (if truthy an then
            v ← element_value0 element "x00620009"; Ok (cleanString v)
          else Ok VUndef);
  (* displayValue *)
  gray ← get element "x0062000C";
  dv ← (if defined gray then
          element_value element "x006200C"
        else
          lab ← get element "x0062000D";
          if defined lab then
            cielabElement ← get lab "value";
            l0 ← index cielabElement 0;
            a0 ← index cielabElement 1;
            b0 ← index cielabElement 2;
            Ok (cielabToSrgb
                  (uintLabToLab (VObj [("l", l0); ("a", a0); ("b", b0)])))
          else Ok VUndef);
  Ok {| number := n; label := cleanString l; algorithmType := cleanString t;
        algorithmName := name; displayValue := dv |}.

Definition isEqualSegment (seg1 seg2 : segment_ref) : result bool :=
  match seg1, seg2 with
  | Seg s1, Seg s2 =>
      let isEqual := strict_eq (number s1) (number s2)
                     && strict_eq (label s1) (label s2)
                     && strict_eq (algorithmType s1) (algorithmType s2) in
      r1 ← get (displayValue s1) "r";
      isEqual ← (if defined r1 then
                   r2 ← get (displayValue s2) "r";
                   if negb (defined r2) then Ok false
                   else Ok (isEqual
                            && isEqualRgb (displayValue s1) (displayValue s2))
                 else Ok (isEqual
                          && strict_eq (displayValue s1) (displayValue s2)));
      if defined (algorithmName s1) then
        if negb (defined (algorithmName s2)) then Ok false
        else Ok (isEqual && strict_eq (algorithmName s1) (algorithmName s2))
      else Ok isEqual
  | _, _ => Ok false
  end.

Definition isSimilarSegment (seg1 seg2 : segment_ref) : result bool :=
  match seg1, seg2 with
  | Seg s1, Seg s2 =>
      let isSimilar := strict_eq (number s1) (number s2) in
      r1 ← get (displayValue s1) "r";
      if defined r1 then
        r2 ← get (displayValue s2) "r";
        if negb (defined r2) then Ok false
        else Ok (isSimilar
                 || isEqualRgb (displayValue s1) (displayValue s2))
      else Ok (isSimilar || strict_eq (displayValue s1) (displayValue s2))
  | _, _ => Ok false
  end.

(** *** Spacing reader *)

Definition getSpacingFromMeasure (measure : value) : result spacing_ref :=
  pixelSpacing ← get measure "x00280030";
  if negb (defined pixelSpacing) then Ok SNull
  else
    pv ← get pixelSpacing "value";
    p0 ← index pv 0;
    p1 ← index pv 1;
    let spacingValues := [parseFloat p0; parseFloat p1] in
    sliceThickness ← get measure "x00180088";
    if defined sliceThickness then
      tv ← get sliceThickness "value";
      t0 ← index tv 0;
      Ok (Spacing (spacingValues ++ [parseFloat t0]))
    else Ok (Spacing spacingValues).

(** *** Frame-info reader *)

Definition getSourceImage (item : value) : result sourceImage :=
  c ← get item "x00081150";
  classUID ← (if defined c then element_value0 item "x00081150"
              else Ok VUndef);
  i ← get item "x00081155";
  instanceUID ← (if defined i then element_value0 item "x00081155"
                 else Ok VUndef);
  Ok {| referencedSOPClassUID := classUID;
        referencedSOPInstanceUID := instanceUID |}.

Definition getSourceImages (derivationItem : value)
  : result (list sourceImage) :=
  s ← get derivationItem "x00082112";
  if defined s then
    sourceImageSq ← get s "value";
    for_each getSourceImage sourceImageSq
  else Ok [].

Definition getDerivationImages (groupItem : value)
  : result (list (list sourceImage)) :=
  d ← get groupItem "x00089124";
  if defined d then
    derivationImageSq ← get d "value";
    for_each getSourceImages derivationImageSq
  else Ok [].

(** [for (p = 0; p < imagePosPat.length; ++p)
       imagePosPat[p] = parseFloat(imagePosPat[p], 10)]:
    the array after the loop.  Only reading [length] can throw, and
    nothing is written before. *)
Fixpoint parsePosPat_from (imagePosPat : value) (p : Z) (n : nat)
  : result value :=
  match n with
  | O => Ok imagePosPat
  | S n' =>
      x ← index imagePosPat p;
      parsePosPat_from (set_index imagePosPat p (VNum (parseFloat x)))
                       (p + 1) n'
  end.

Definition parsePosPat (imagePosPat : value) : result value :=
  len ← get imagePosPat "length";
  parsePosPat_from imagePosPat 0 (trip_count len).

(** [groupItem.x00209113.value[0].x00200032.value], and the item once that
    array holds [arr]. *)
Definition planePosition (groupItem : value) : result value :=
  planePosSq ← element_value groupItem "x00209113";
  item0 ← index planePosSq 0;
  element_value item0 "x00200032".

Definition setPlanePosition (groupItem : value) (arr : value) : value :=
  match (el1 ← get groupItem "x00209113";
         planePosSq ← get el1 "value";
         item0 ← index planePosSq 0;
         el2 ← get item0 "x00200032";
         Ok (set_prop groupItem "x00209113"
               (set_prop el1 "value"
                  (set_index planePosSq 0
                     (set_prop item0 "x00200032"
                        (set_prop el2 "value" arr)))))) with
  | Ok groupItem' => groupItem'
  | _ => groupItem
  end.

(** What [getSegmentFrameInfo] reads before it touches the position. *)
Definition frameInfoHead (groupItem : value)
  : result (list (list sourceImage) * value * value * value) :=
  derivationImages ← getDerivationImages groupItem;
  frameContentSq ← element_value groupItem "x00209111";
  fc0 ← index frameContentSq 0;
  dimIndex ← element_value fc0 "x00209157";
  segmentIdSq ← element_value groupItem "x0062000A";
  si0 ← index segmentIdSq 0;
  refSegmentNumber ← element_value0 si0 "x0062000B";
  imagePosPat ← planePosition groupItem;
  Ok (derivationImages, dimIndex, refSegmentNumber, imagePosPat).

(** What it reads after: the per-frame orientation and spacing. *)
Definition frameOrientation (groupItem : value) : result value :=
  o ← get groupItem "x00209116";
  if defined o then
    ov ← get o "value";
    len ← get ov "length";
    if negb (strict_eq len (VInt 0)) then
      o0 ← index ov 0;
      element_value o0 "x00200037"
    else Ok VUndef
  else Ok VUndef.

Definition frameSpacing (groupItem : value) : result spacing_ref :=
  m ← get groupItem "x00289110";
  if defined m then
    mv ← get m "value";
    len ← get mv "length";
    if negb (strict_eq len (VInt 0)) then
      m0 ← index mv 0;
      getSpacingFromMeasure m0
    else Ok SUndef
  else Ok SUndef.

(** The frame reader returns the group item as it leaves it: the entries
    of its Image Position (Patient) array are overwritten with their
    [parseFloat], and the frame information holds that same array. *)
Definition getSegmentFrameInfo (groupItem : value)
  : value * result frameInfo :=
  match frameInfoHead groupItem with
  | Ok (derivationImages, dimIndex, refSegmentNumber, imagePosPat) =>
      match parsePosPat imagePosPat with
      | Ok parsed =>
          let groupItem' := setPlanePosition groupItem parsed in
          (groupItem',
           orientation ← frameOrientation groupItem';
           sp ← frameSpacing groupItem';
           Ok {| dimIndex := dimIndex;
                 imagePosPat := parsed;
                 derivationImages := derivationImages;
                 refSegmentNumber := refSegmentNumber;
                 imageOrientationPatient := orientation;
                 spacing := sp |})
      | Throw e => (groupItem, Throw e)
      | OutOfFuel => (groupItem, OutOfFuel)
      end
  | Throw e => (groupItem, Throw e)
  | OutOfFuel => (groupItem, OutOfFuel)
  end.

End WithEnv.

End Dicom.

(** ** dwv.image.MaskFactory *)

Module MaskFactory.
Import JS Dicom.

(** Modelled from the spec: the geometric value types built by the
    factory ([dwv.math.Point3D], [dwv.image.Geometry], [dwv.image.Image]),
    kept as the records of what the factory passes to them. *)
Record point3D := {
  px : value;
  py : value;
  pz : value
}.

Record geometry := {
  origin : point3D;
  geo_size : value;
  geo_spacing : spacing_ref;
  appended : list (point3D * Z)
}.

Record meta := {
  Modality : string;
  SegmentationType : string;
  DimensionOrganizationType : string;
  DimensionOrganizations : list value;
  DimensionIndices : list dimensionIndex;
  BitsStored : Z;
  SeriesInstanceUID : value;
  ImageOrientationPatient : value;
  custom_segments : list segment;
  custom_frameInfos : list frameInfo
}.

Record image := {
  image_geometry : geometry;
  image_buffer : list value;
  image_uids : list Z;
  photometricInterpretation : option string;
  image_meta : meta
}.

(** The two inputs as the decode leaves them. *)
Record store := {
  elements : value;
  pixels : list value
}.

Section WithEnv.
Context `{Env}.

(** *** Header: lines 367-394 *)

Definition readFrames (dicomElements : value) : jsnum :=
  let frames := getFromKey dicomElements "x00280008" false in
  if negb (truthy frames) then Int 1 else parseInt frames.

(** [frames === bufferLength / sliceSize]: the quotient is the exact one,
    so it is the integer [frames] when [frames * sliceSize] is the length
    and [sliceSize] is not zero, and never when a side is NaN. *)
Definition framesMatchBuffer (frames : jsnum) (bufferLength : Z)
    (sliceSize : jsnum) : bool :=
  match frames, sliceSize with
  | Int f, Int s => negb (s =? 0) && (f * s =? bufferLength)
  | _, _ => false
  end.

Definition readHeader (dicomElements : value) (pixelBuffer : list value)
  : result (jsnum * jsnum) :=
  _ ← checkDicomSeg dicomElements;
  let columns := getFromKey dicomElements "x00280011" false in
  if negb (truthy columns) then
    Throw (Error "Missing or empty DICOM image number of columns")
  else
    let rows := getFromKey dicomElements "x00280010" false in
    if negb (truthy rows) then
      Throw (Error "Missing or empty DICOM image number of rows")
    else
      let sliceSize := num_mul (to_number columns) (to_number rows) in
      let frames := readFrames dicomElements in
      let bufferLength := Z.of_nat (length pixelBuffer) in
      if negb (framesMatchBuffer frames bufferLength sliceSize) then
        Throw (BufferFramesError frames bufferLength sliceSize)
      else Ok (sliceSize, frames).

(** *** Segments: lines 399-416 *)

Definition isRgbShaped (displayValue : value) : result bool :=
  r ← get displayValue "r";
  g ← get displayValue "g";
  b ← get displayValue "b";
  Ok (defined r && defined g && defined b).

Definition readSegment (item : value) : result (segment * bool) :=
  segment ← getSegment item;
  rgb ← isRgbShaped (displayValue segment);
  Ok (segment, rgb).

Definition readSegments (dicomElements : value)
  : result (list segment * bool) :=
  let segSequence := getFromKey dicomElements "x00620002" true in
  if negb (truthy segSequence) then
    Throw (Error "Missing or empty segmentation sequence")
  else
    l ← for_each readSegment segSequence;
    Ok (l.*1, existsb snd l).

(** *** Shared functional groups: lines 421-455 *)

Definition parseFloatAll (orientArray : value) : result value :=
  match orientArray with
  | VArr l => Ok (VArr (map (fun x => VNum (parseFloat x)) l))
  | _ => Throw TypeError
  end.

Definition sharedOrientation (funcGroup0 : value) : result value :=
  o ← get funcGroup0 "x00209116";
  if defined o then
    ov ← get o "value";
    len ← get ov "length";
    if negb (strict_eq len (VInt 0)) then
      o0 ← index ov 0;
      orientArray ← element_value o0 "x00200037";
      parseFloatAll orientArray
    else Ok VUndef
  else Ok VUndef.

Definition sharedSpacing (funcGroup0 : value) : result spacing_ref :=
  m ← get funcGroup0 "x00289110";
  if defined m then
    mv ← get m "value";
    len ← get mv "length";
    if negb (strict_eq len (VInt 0)) then
      m0 ← index mv 0;
      getSpacingFromMeasure m0
    else Ok SUndef
  else Ok SUndef.

Definition readSharedGroups (dicomElements : value)
  : result (spacing_ref * value) :=
  let sharedFunctionalGroupsSeq :=
    getFromKey dicomElements "x52009229" true in
  if truthy sharedFunctionalGroupsSeq then
    len ← get sharedFunctionalGroupsSeq "length";
    if negb (strict_eq len (VInt 0)) then
      funcGroup0 ← index sharedFunctionalGroupsSeq 0;
      orientation ← sharedOrientation funcGroup0;
      sp ← sharedSpacing funcGroup0;
      Ok (sp, orientation)
    else Ok (SUndef, VUndef)
  else Ok (SUndef, VUndef).

(** *** Local helpers of [create]: lines 457-479 *)

Definition includesPosPat (arr : list value) (val : value) : bool :=
  existsb (fun arrVal => equalPosPat val arrVal) arr.

Fixpoint findIndexPosPat_from (arr : list value) (val : value) (i : Z) : Z :=
  match arr with
  | [] => -1
  | arrVal :: arr' =>
      if equalPosPat val arrVal then i
      else findIndexPosPat_from arr' val (i + 1)
  end.

Definition findIndexPosPat (arr : list value) (val : value) : Z :=
  findIndexPosPat_from arr val 0.

Fixpoint every_equal (l0 : list value) (arr1 : value) (i : Z)
  : result bool :=
  match l0 with
  | [] => Ok true
  | element :: l0' =>
      x ← index arr1 i;
      if strict_eq element x then every_equal l0' arr1 (i + 1)
      else Ok false
  end.

Definition arrayEquals (arr0 arr1 : value) : result bool :=
  match arr0, arr1 with
  | VNull, _ | _, VNull => Ok false
  | _, _ =>
      len0 ← get arr0 "length";
      len1 ← get arr1 "length";
      if negb (strict_eq len0 len1) then Ok false
      else match arr0 with
           | VArr l0 => every_equal l0 arr1 0
           | _ => Throw TypeError
           end
  end.

(** *** Everything read before the per-frame sequence: lines 367-455 *)

Record headerInfo := {
  sliceSize : jsnum;
  frames : jsnum;
  dimensionInfo : dimension;
  segments : list segment;
  storeAsRGB : bool;
  size : value;
  sharedSpacingValue : spacing_ref;
  sharedOrientationValue : value
}.

Definition readBeforeFrames (dicomElements : value)
    (pixelBuffer : list value) : result headerInfo :=
  '(sliceSize, frames) ← readHeader dicomElements pixelBuffer;
  dimension ← getDimensionOrganization dicomElements;
  '(segments, storeAsRGB) ← readSegments dicomElements;
  size ← getImageSize dicomElements;
  '(sp, orientation) ← readSharedGroups dicomElements;
  Ok {| sliceSize := sliceSize; frames := frames;
        dimensionInfo := dimension; segments := segments;
        storeAsRGB := storeAsRGB; size := size;
        sharedSpacingValue := sp; sharedOrientationValue := orientation |}.

(** *** Per-frame functional groups: lines 481-496 *)

Definition readPerFrameSequence (frames : jsnum) (dicomElements : value)
  : result value :=
  let perFrameFuncGroupSequence :=
    getFromKey dicomElements "x52009230" true in
  if negb (truthy perFrameFuncGroupSequence) then
    Throw (Error "Missing or empty per frame functional sequence")
  else
    len ← get perFrameFuncGroupSequence "length";
    if negb (strict_eq (VNum frames) len) then
      Throw (Error
        "perFrameFuncGroupSequence meta and numberOfFrames are not equal.")
    else Ok perFrameFuncGroupSequence.

(** The loop over the sequence, which [getSegmentFrameInfo] writes: the
    sequence as the loop leaves it, and the frame informations. *)
Fixpoint readFrameInfos_from (seq : value) (j : Z) (n : nat)
  : value * result (list frameInfo) :=
  match n with
  | O => (seq, Ok [])
  | S n' =>
      match index seq j with
      | Ok item =>
          let '(item', r) := getSegmentFrameInfo item in
          let seq' := match item with
                      | VObj _ => set_index seq j item'
                      | _ => seq
                      end in
          match r with
          | Ok info =>
              let '(seq'', rest) := readFrameInfos_from seq' (j + 1) n' in
              (seq'', infos ← rest; Ok (info :: infos))
          | Throw e => (seq', Throw e)
          | OutOfFuel => (seq', OutOfFuel)
          end
      | Throw e => (seq, Throw e)
      | OutOfFuel => (seq, OutOfFuel)
      end
  end.

Definition readFrameInfos (seq : value) : value * result (list frameInfo) :=
  match get seq "length" with
  | Ok len => readFrameInfos_from seq 0 (trip_count len)
  | Throw e => (seq, Throw e)
  | OutOfFuel => (seq, OutOfFuel)
  end.

(** The root of the element tree once the value of element [key] is [v]. *)
Definition setElementValue (dicomElements : value) (key : string)
    (v : value) : value :=
  match dicomElements with
  | VObj fs =>
      match lookup_field key fs with
      | VObj el => VObj (set_field key (VObj (set_field "value" v el)) fs)
      | _ => dicomElements
      end
  | _ => dicomElements
  end.

(** *** Check of the frame informations: lines 498-535 *)

Definition checkFrameInfo (st : list value * value * spacing_ref)
    (info : frameInfo) : result (list value * value * spacing_ref) :=
  let '(framePosPats, orientation, sp) := st in
  let framePosPats :=
    if negb (includesPosPat framePosPats (imagePosPat info))
    then framePosPats ++ [imagePosPat info] else framePosPats in
  (* store orientation if needed, avoid multi *)
  orientation ←
    (if defined (imageOrientationPatient info) then
       if negb (defined orientation) then Ok (imageOrientationPatient info)
       else
         same ← arrayEquals orientation (imageOrientationPatient info);
         if negb same then
           Throw (Error "Unsupported multi orientation dicom seg.")
         else Ok orientation
     else Ok orientation);
  (* store spacing if needed, avoid multi *)
  sp ←
    (match spacing info with
     | SUndef => Ok sp
     | frameSp =>
         match sp with
         | SUndef => Ok frameSp
         | SNull => Throw TypeError
         | Spacing values =>
             if negb (spacing_equals values frameSp) then
               Throw (Error "Unsupported multi resolution dicom seg.")
             else Ok sp
         end
     end);
  Ok (framePosPats, orientation, sp).

Fixpoint checkFrameInfos (st : list value * value * spacing_ref)
    (infos : list frameInfo) : result (list value * value * spacing_ref) :=
  match infos with
  | [] => Ok st
  | info :: infos' => st' ← checkFrameInfo st info; checkFrameInfos st' infos'
  end.

(** *** Position-set builder: lines 537-550 *)

(** The [while] loop for one pair: the synthetic positions it pushes.
    Each iteration takes one unit of [fuel]. *)
Fixpoint fillGap (fuel : nat) (pos next : value) (sliceSpacing : value)
    (nextZ : jsnum) : result (list value) :=
  z1 ← index next 2;
  let diff := num_abs (num_sub nextZ (to_number z1)) in
  if num_geb diff (to_number sliceSpacing) then
    match fuel with
    | O => OutOfFuel
    | S fuel' =>
        x ← index pos 0;
        y ← index pos 1;
        r ← fillGap fuel' pos next sliceSpacing
              (num_sub nextZ (to_number sliceSpacing));
        Ok (VArr [x; y; VNum nextZ] :: r)
    end
  else Ok [].

Fixpoint completePosPats_from (fuel : nat) (pos : value)
    (rest : list value) (sliceSpacing : value) : result (list value) :=
  match rest with
  | [] => Ok [pos]
  | next :: rest' =>
      z ← index pos 2;
      let nextZ := num_sub (to_number z) (to_number sliceSpacing) in
      gap ← fillGap fuel pos next sliceSpacing nextZ;
      r ← completePosPats_from fuel next rest' sliceSpacing;
      Ok (pos :: gap ++ r)
  end.

Definition completePosPats (fuel : nat) (framePosPats : list value)
    (sliceSpacing : value) : result (list value) :=
  match framePosPats with
  | [] => Ok [VUndef]
  | pos :: rest => completePosPats_from fuel pos rest sliceSpacing
  end.

(** *** Frame merging: lines 552-590 *)

Fixpoint findSegment (segments : list segment) (number0 : value)
  : option segment :=
  match segments with
  | [] => None
  | item :: segments' =>
      if strict_eq (number item) number0 then Some item
      else findSegment segments' number0
  end.

(** The body of the pixel loop for pixel [l]. *)
Definition mergePixel (storeAsRGB : bool) (pixelValue : value)
    (pixelBuffer : list value) (frameOffset sliceOffset : jsnum) (l : Z)
    (buffer : list value) : result (list value) :=
  let mul := if storeAsRGB then 3 else 1 in
  if negb (strict_eq (nth_number pixelBuffer (num_add frameOffset (Int l)))
                     (VInt 0)) then
    let offset := num_mul (Int mul) (num_add sliceOffset (Int l)) in
    if storeAsRGB then
      r ← get pixelValue "r";
      let buffer := array_set buffer offset r in
      g ← get pixelValue "g";
      let buffer := array_set buffer (num_add offset (Int 1)) g in
      b ← get pixelValue "b";
      Ok (array_set buffer (num_add offset (Int 2)) b)
    else Ok (array_set buffer offset pixelValue)
  else Ok buffer.

Fixpoint mergePixels_from (storeAsRGB : bool) (pixelValue : value)
    (pixelBuffer : list value) (frameOffset sliceOffset : jsnum) (l : Z)
    (n : nat) (buffer : list value) : result (list value) :=
  match n with
  | O => Ok buffer
  | S n' =>
      buffer' ← mergePixel storeAsRGB pixelValue pixelBuffer
                  frameOffset sliceOffset l buffer;
      mergePixels_from storeAsRGB pixelValue pixelBuffer
        frameOffset sliceOffset (l + 1) n' buffer'
  end.

(** The body of the frame loop for frame [f]. *)
Definition mergeFrame (segments : list segment) (posPats : list value)
    (sliceSize : jsnum) (storeAsRGB : bool) (pixelBuffer : list value)
    (f : Z) (info : frameInfo) (buffer : list value)
  : result (list value) :=
  let sliceIndex := findIndexPosPat posPats (imagePosPat info) in
  let frameOffset := num_mul sliceSize (Int f) in
  let sliceOffset := num_mul sliceSize (Int sliceIndex) in
  match findSegment segments (refSegmentNumber info) with
  | None => Throw TypeError
  | Some frameSegment =>
      let pixelValue := displayValue frameSegment in
      mergePixels_from storeAsRGB pixelValue pixelBuffer
        frameOffset sliceOffset 0 (trip_count (VNum sliceSize)) buffer
  end.

Fixpoint mergeFrames_from (segments : list segment) (posPats : list value)
    (sliceSize : jsnum) (storeAsRGB : bool) (pixelBuffer : list value)
    (f : Z) (frameInfos : list frameInfo) (buffer : list value)
  : result (list value) :=
  match frameInfos with
  | [] => Ok buffer
  | info :: frameInfos' =>
      buffer' ← mergeFrame segments posPats sliceSize storeAsRGB
                  pixelBuffer f info buffer;
      mergeFrames_from segments posPats sliceSize storeAsRGB pixelBuffer
        (f + 1) frameInfos' buffer'
  end.

(** Allocation of the output buffer and the merge of the frames into it. *)
Definition mergeFrames (segments : list segment) (posPats : list value)
    (sliceSize : jsnum) (storeAsRGB : bool) (pixelBuffer : list value)
    (frameInfos : list frameInfo) : result (list value) :=
  let numberOfSlices := Z.of_nat (length posPats) in
  let mul := if storeAsRGB then 3 else 1 in
  buffer ← new_filled_array
             (num_mul (num_mul (Int mul) sliceSize) (Int numberOfSlices));
  mergeFrames_from segments posPats sliceSize storeAsRGB pixelBuffer
    0 frameInfos buffer.

(** *** Geometry, image and meta data: lines 596-631 *)

Definition point3DFromArray (arr : value) : result point3D :=
  x ← index arr 0;
  y ← index arr 1;
  z ← index arr 2;
  Ok {| px := x; py := y; pz := z |}.

Fixpoint appendOrigins (posPats : list value) (m : Z)
  : result (list (point3D * Z)) :=
  match posPats with
  | [] => Ok []
  | pos :: posPats' =>
      pt ← point3DFromArray pos;
      r ← appendOrigins posPats' (m + 1);
      Ok ((pt, m) :: r)
  end.

Definition buildImage (dicomElements : value) (info : headerInfo)
    (frameInfos : list frameInfo) (orientation : value) (sp : spacing_ref)
    (posPats : list value) (buffer : list value) : result image :=
  origin0 ← point3DFromArray (nth_value posPats 0);
  others ← appendOrigins (tail posPats) 1;
  let geometry0 := {| origin := origin0; geo_size := size info;
                      geo_spacing := sp; appended := others |} in
  let uids := 0 :: others.*2 in
  let meta0 := {|
    Modality := "SEG";
    SegmentationType := "BINARY";
    DimensionOrganizationType := "3D";
    DimensionOrganizations := organizations (dimensionInfo info);
    DimensionIndices := indices (dimensionInfo info);
    BitsStored := 8;
    SeriesInstanceUID := getFromKey dicomElements "x0020000E" false;
    ImageOrientationPatient := orientation;
    custom_segments := segments info;
    custom_frameInfos := frameInfos |} in
  Ok {| image_geometry := geometry0;
        image_buffer := buffer;
        image_uids := uids;
        photometricInterpretation :=
          if storeAsRGB info then Some "RGB" else None;
        image_meta := meta0 |}.

(** *** What [create] does once the frame informations are read:
        lines 498-631 *)

Definition assemble (fuel : nat) (dicomElements : value)
    (pixelBuffer : list value) (info : headerInfo)
    (frameInfos : list frameInfo) : result image :=
  '(framePosPats, orientation, sp) ←
    checkFrameInfos ([], sharedOrientationValue info,
                     sharedSpacingValue info) frameInfos;
  (* sort positions patient *)
  framePosPats ← array_sort comparePosPat framePosPats;
  (* check spacing and orientation *)
  match sp with
  | SUndef => Throw (Error "No spacing found for DICOM SEG")
  | _ =>
      if negb (defined orientation) then
        Throw (Error "No imageOrientationPatient found for DICOM SEG")
      else
        match sp with
        | Spacing values =>
            (* add missing posPats *)
            posPats ← completePosPats fuel framePosPats
                        (spacing_get values 2);
            buffer ← mergeFrames (segments info) posPats (sliceSize info)
                       (storeAsRGB info) pixelBuffer frameInfos;
            buildImage dicomElements info frameInfos orientation sp
              posPats buffer
        | _ => Throw TypeError
        end
  end.

(** *** The factory *)

Definition create (fuel : nat) (dicomElements : value)
    (pixelBuffer : list value) : store * result image :=
  match (info ← readBeforeFrames dicomElements pixelBuffer;
         seq ← readPerFrameSequence (frames info) dicomElements;
         Ok (info, seq)) with
  | Ok (info, seq) =>
      let '(seq', frameInfos) := readFrameInfos seq in
      let dicomElements' :=
        setElementValue dicomElements "x52009230" seq' in
      ({| elements := dicomElements'; pixels := pixelBuffer |},
       infos ← frameInfos;
       assemble fuel dicomElements' pixelBuffer info infos)
  | Throw e =>
      ({| elements := dicomElements; pixels := pixelBuffer |}, Throw e)
  | OutOfFuel =>
      ({| elements := dicomElements; pixels := pixelBuffer |}, OutOfFuel)
  end.

End WithEnv.

End MaskFactory.

(** ** Vocabulary of the properties

    The definitions below state the properties; none of them is part of
    the embedding. *)

Import JS Dicom MaskFactory.

(** *** Positions *)

(** A position with integer coordinates, as the array the code holds. *)
Definition posPat (p : list Z) : value := VArr (map VInt p).

Definition pos3 (p : Z * Z * Z) : value :=
  let '(x, y, z) := p in posPat [x; y; z].

(** The first entry of a list of differences that is not zero, zero when
    there is none. *)
Fixpoint firstNonzero (diffs : list Z) : Z :=
  match diffs with
  | [] => 0
  | d :: diffs' => if d =? 0 then firstNonzero diffs' else d
  end.

(** [a] is not after [b] in the descending order: by the last axis first,
    then by the one before, then by the first. *)
Definition descending (a b : Z * Z * Z) : Prop :=
  let '(x, y, z) := a in
  let '(x', y', z') := b in
  z' < z \/ (z' = z /\ (y' < y \/ (y' = y /\ x' <= x))).





(** *** Strings of digits *)





(** *** Voxels *)

Definition channels (storeAsRGB : bool) : nat := if storeAsRGB then 3 else 1.

(** The offset of channel [c] of pixel [l] of slice [k]. *)
Definition offsetOf (storeAsRGB : bool) (n k l c : nat) : nat :=
  channels storeAsRGB * (k * n + l) + c.

(** Pixel [l] of frame [f] is not zero in the source. *)
Definition marks (pixelBuffer : list value) (n f l : nat) : bool :=
  negb (strict_eq (nth_value pixelBuffer (Z.of_nat n * Z.of_nat f + Z.of_nat l))
                  (VInt 0)).

(** What a display value puts in channel [c]. *)
Definition channel (storeAsRGB : bool) (pixelValue : value) (c : nat)
  : value :=
  if storeAsRGB then
    match get pixelValue (match c with O => "r" | 1%nat => "g" | _ => "b" end)
    with
    | Ok v => v
    | _ => VUndef
    end
  else pixelValue.

(** Frame [info] resolves: its position is in the list and its segment is
    known (and has a display value to take the colours from). *)
Definition resolves (segments : list segment) (posPats : list value)
    (storeAsRGB : bool) (info : frameInfo) : Prop :=
  0 <= findIndexPosPat posPats (imagePosPat info)
  /\ exists seg, findSegment segments (refSegmentNumber info) = Some seg
                 /\ (storeAsRGB = true ->
                     displayValue seg <> VUndef /\ displayValue seg <> VNull).


(** Channel [c] of voxel [(k, l)] once the frames [infos], numbered from
    [f], are merged in order over the value [init]: each frame of slice [k]
    that marks pixel [l] replaces what is there. *)
Fixpoint voxel (segments : list segment) (posPats pixelBuffer : list value)
    (storeAsRGB : bool) (n k l c : nat) (f : nat) (infos : list frameInfo)
    (init : value) : value :=
  match infos with
  | [] => init
  | info :: infos' =>
      voxel segments posPats pixelBuffer storeAsRGB n k l c (S f) infos'
        (if bool_decide (findIndexPosPat posPats (imagePosPat info)
                         = Z.of_nat k)
            && marks pixelBuffer n f l
         then match findSegment segments (refSegmentNumber info) with
              | Some seg => channel storeAsRGB (displayValue seg) c
              | None => init
              end
         else init)
  end.

(** *** Errors *)

(** The error classes of the specification and the errors of the code
    that fall in each. *)
Inductive errorClass :=
| UnsupportedTransferSyntax
| InvalidSegmentationType
| UnsupportedDimensionOrganization
| FrameCountMismatch.

Inductive inClass : exn -> errorClass -> Prop :=
| class_syntax algo :
    inClass (Error ("Unsupported compressed segmentation: " +:+ algo))
            UnsupportedTransferSyntax
| class_type_missing :
    inClass (Error "Missing or empty DICOM segmentation type")
            InvalidSegmentationType
| class_type_other name :
    inClass (Error ("Unsupported segmentation type: " +:+ name))
            InvalidSegmentationType
| class_organization name :
    inClass (Error ("Unsupported dimension organization type: " +:+ name))
            UnsupportedDimensionOrganization
| class_frames_buffer frames bufferLength sliceSize :
    inClass (BufferFramesError frames bufferLength sliceSize)
            FrameCountMismatch
| class_frames_sequence :
    inClass (Error
      "perFrameFuncGroupSequence meta and numberOfFrames are not equal.")
            FrameCountMismatch.

(** *** What the decode writes *)


Definition parsedEntry (x : value) : value := VNum (parseFloat x).

(** *** Comparisons *)


(** [x === y] holds. *)
Definition strictlyEqual (x y : value) : Prop := strict_eq x y = true.

(** No entry of a list of positions is [equalPosPat] to a later one. *)
Definition distinctPosPats (l : list value) : Prop :=
  forall i j x y, (i < j)%nat -> l !! i = Some x -> l !! j = Some y ->
                  equalPosPat x y = false.


(** Two display values agree, as colours or as scalars. *)
Definition sameDisplay (v1 v2 : value) : Prop :=
  isEqualRgb v1 v2 = true \/ v1 = v2.

(** *** Frames and items *)

(** A frame agrees with the orientation and the spacing kept for the
    volume: what it carries is the kept value, or an orientation whose
    entries are strictly equal to the kept ones. *)
Definition agreesWith (orientation : value) (sp : spacing_ref)
    (info : frameInfo) : Prop :=
  (defined (imageOrientationPatient info) = true ->
   imageOrientationPatient info = orientation
   \/ arrayEquals orientation (imageOrientationPatient info) = Ok true)
  /\ (spacing info <> SUndef -> spacing info = sp).

(** A frame that carries no orientation and no spacing. *)
Definition bare (info : frameInfo) : Prop :=
  imageOrientationPatient info = VUndef /\ spacing info = SUndef.

(** An element value as the parser leaves a decimal string. *)
Definition isText (v : value) : Prop := exists s, v = VStr s.

(** What a segment item must hold for [getSegment] and the colour test of
    [create] to go through: a CIELab display value and no grayscale tag,
    or the property the grayscale branch reads. *)
Definition displayable (item : value) : Prop :=
  exists fs, item = VObj fs
    /\ ((lookup_field "x0062000C" fs = VUndef
         /\ defined (lookup_field "x0062000D" fs) = true)
        \/ defined (lookup_field "x006200C" fs) = true).





(** *** Images *)

(** The number of values the output buffer holds per voxel. *)
Definition samplesPerPixel (img : image) : Z :=
  match photometricInterpretation img with
  | Some _ => 3
  | None => 1
  end.

(** ** A small segmentation object

    One environment for the collaborators and one element tree, used to run
    the functions above on concrete inputs. *)

Module Sample.
Import JS Dicom MaskFactory.

Definition is_pad (c : ascii) : bool :=
  is_space c || (nat_of_ascii c =? 0)%nat.

Fixpoint trim_right (s : string) : string :=
  match s with
  | EmptyString => ""
  | String c s' =>
      match trim_right s' with
      | EmptyString => if is_pad c then "" else String c ""
      | r => String c r
      end
  end.

Definition trim (v : value) : value :=
  match v with
  | VStr s => VStr (trim_right (skip_spaces s))
  | _ => v
  end.

Definition decompressionName (syntax : value) : option string :=
  match syntax with
  | VStr "1.2.840.10008.1.2.4.90" | VStr "1.2.840.10008.1.2.4.91" =>
      Some "jpeg2000"
  | VStr "1.2.840.10008.1.2.4.50" | VStr "1.2.840.10008.1.2.4.51" =>
      Some "jpeg-baseline"
  | VStr "1.2.840.10008.1.2.4.57" | VStr "1.2.840.10008.1.2.4.70" =>
      Some "jpeg-lossless"
  | VStr "1.2.840.10008.1.2.5" => Some "rle"
  | _ => None
  end.

Definition rgbOfLab (lab : value) : value :=
  match lab with
  | VObj fs => VObj [("r", lookup_field "l" fs); ("g", lookup_field "a" fs);
                     ("b", lookup_field "b" fs)]
  | _ => VUndef
  end.

Definition sizeOf (dicomElements : value) : result value :=
  Ok (VArr [getFromKey dicomElements "x00280011" false;
            getFromKey dicomElements "x00280010" false]).

Definition env : Env := {|
  cleanString := trim;
  getSyntaxDecompressionName := decompressionName;
  uintLabToLab := fun lab => lab;
  cielabToSrgb := rgbOfLab;
  getImageSize := sizeOf
|}.

(** A data element with the given value array. *)
Definition element (vs : list value) : value := VObj [("value", VArr vs)].

Definition segmentItem (n : Z) (display : string * value) : value :=
  VObj [("x00620004", element [VInt n]);
        ("x00620005", element [VStr "liver "]);
        ("x00620008", element [VStr "MANUAL"]);
        display].

Definition labDisplay (l a b : Z) : string * value :=
  ("x0062000D", element [VInt l; VInt a; VInt b]).

Definition grayDisplay (g : Z) : string * value :=
  ("x0062000C", element [VInt g]).

Definition frameItem (segmentNumber : Z) (x y z : string) : value :=
  VObj [("x00209111", element [VObj [("x00209157", element [VInt 1])]]);
        ("x0062000A",
         element [VObj [("x0062000B", element [VInt segmentNumber])]]);
        ("x00209113",
         element [VObj [("x00200032", element [VStr x; VStr y; VStr z])]])].

Definition sharedItem : value :=
  VObj [("x00209116",
         element [VObj [("x00200037",
                         element [VStr "1"; VStr "0"; VStr "0";
                                  VStr "0"; VStr "1"; VStr "0"])]]);
        ("x00289110",
         element [VObj [("x00280030", element [VStr "1"; VStr "1"]);
                        ("x00180088", element [VStr "2"])]])].

(** A segmentation of 2 x 2 frames with one segment, an orientation and
    a spacing between slices of 2 in the shared group, and the given
    transfer syntax, segmentation type, frame count and per-frame items. *)
Definition tree (syntax segmentationType : string) (frameCount : string)
    (perFrame : list value) : value :=
  VObj [("x00020010", element [VStr syntax]);
        ("x00620001", element [VStr segmentationType]);
        ("x00280011", element [VInt 2]);
        ("x00280010", element [VInt 2]);
        ("x00280008", element [VStr frameCount]);
        ("x00209221",
         element [VObj [("x00209164", element [VStr "1.2.3"])]]);
        ("x00620002", element [segmentItem 1 (labDisplay 10 20 30)]);
        ("x52009229", element [sharedItem]);
        ("x52009230", element perFrame);
        ("x0020000E", element [VStr "1.2.3.4"])].

(** Two frames of the segment, at z = 10 and z = 6, and their pixels. *)
Definition twoFrames : list value :=
  [frameItem 1 "0" "0" "10"; frameItem 1 "0" "0" "6"].

Definition dicomElements : value :=
  tree "1.2.840.10008.1.2.1" "BINARY " "2" twoFrames.

Definition pixelBuffer : list value :=
  map VInt [1; 0; 0; 1; 0; 1; 1; 0].

(** The root with one more element in front. *)
Definition withElement (key : string) (vs : list value) (root : value)
  : value :=
  match root with
  | VObj fs => VObj ((key, element vs) :: fs)
  | _ => root
  end.


Definition compressed : value :=
  tree "1.2.840.10008.1.2.4.50" "BINARY" "2" twoFrames.

Definition fractional : value :=
  tree "1.2.840.10008.1.2.1" "FRACTIONAL" "2" twoFrames.

Definition tiled : value :=
  withElement "x00209311" [VStr "TILED_FULL"] dicomElements.

(** A segment item that carries the grayscale display value 5. *)
Definition grayItem : value := segmentItem 1 (grayDisplay 5).

(** Two segments with the same number, one with a colour and one with a
    scalar display value. *)
Definition rgbSegment : segment := {|
  number := VInt 1; label := VStr "liver"; algorithmType := VStr "MANUAL";
  algorithmName := VUndef;
  displayValue := VObj [("r", VInt 10); ("g", VInt 20); ("b", VInt 30)]
|}.

Definition scalarSegment : segment := {|
  number := VInt 1; label := VStr "liver"; algorithmType := VStr "MANUAL";
  algorithmName := VUndef;
  displayValue := VInt 5
|}.

(** One frame of [scalarSegment] at position [(0, 0, z)]. *)
Definition frameAt (z : Z) : frameInfo := {|
  dimIndex := VArr [VInt 1];
  imagePosPat := pos3 (0, 0, z);
  derivationImages := [];
  refSegmentNumber := VInt 1;
  imageOrientationPatient := VUndef;
  spacing := SUndef
|}.

(** A segment item without a display value. *)
Definition bareFields : list (string * value) :=
  [("x00620004", element [VInt 1]);
   ("x00620005", element [VStr "liver"]);
   ("x00620008", element [VStr "MANUAL"])].

(** The segment [scalarSegment] with an algorithm name. *)
Definition namedSegment : segment := {|
  number := VInt 1; label := VStr "liver"; algorithmType := VStr "MANUAL";
  algorithmName := VStr "threshold";
  displayValue := VInt 5
|}.

(** A per-frame item without Plane Position Sequence. *)
Definition unplacedFields : list (string * value) :=
  [("x00209111",
    element [VObj [("x00209157", element [VInt 1])]]);
   ("x0062000A",
    element [VObj [("x0062000B", element [VInt 1])]])].

(** A frame of segment [n] at position [(0, 0, z)] with the given
    orientation and spacing. *)
Definition frameOf (n z : Z) (orientation : value) (sp : spacing_ref)
  : frameInfo := {|
  dimIndex := VArr [VInt 1];
  imagePosPat := pos3 (0, 0, z);
  derivationImages := [];
  refSegmentNumber := VInt n;
  imageOrientationPatient := orientation;
  spacing := sp
|}.

Definition axial : value := VArr (VInt <$> [1; 0; 0; 0; 1; 0]).

Definition axialText : value :=
  VArr (VStr <$> ["1"; "0"; "0"; "0"; "1"; "0"]).

(** A dimension index item of organization "1.2.3". *)
Definition indexItem (pointer : string) : value :=
  VObj [("x00209164", element [VStr "1.2.3"]);
        ("x00209165", element [VStr pointer])].

(** The tree with a dimension index sequence, the tree that declares no
    frame, and a tree whose number of columns is zero. *)
Definition indexed : value :=
  withElement "x00209222"
    [indexItem "(0062,000B)"; indexItem "(0020,0032)"] dicomElements.

Definition noFrames : value :=
  tree "1.2.840.10008.1.2.1" "BINARY" "0" [].

Definition noColumns : value :=
  VObj [("x00020010", element [VStr "1.2.840.10008.1.2.1"]);
        ("x00620001", element [VStr "BINARY"]);
        ("x00280011", element [VInt 0])].

(** What [create] has read of the tree before the frames, without a
    shared orientation or spacing. *)
Definition header : headerInfo := {|
  sliceSize := Int 4; frames := Int 2;
  dimensionInfo := {| organizations := [VStr "1.2.3"]; indices := [] |};
  segments := [scalarSegment]; storeAsRGB := false;
  size := VArr [VInt 2; VInt 2];
  sharedSpacingValue := SUndef; sharedOrientationValue := VUndef
|}.

End Sample.

(** * Properties *)

(** Inversion of a successful sequence of reads. *)
Ltac bind_ok H :=
  repeat match type of H with
    | (?m ≫= _) = Ok _ =>
        let E := fresh "E" in
        destruct m eqn:E; cbn [mbind result_bind bind] in H;
        [|discriminate H..]
    | (if ?b then _ else _) = Ok _ =>
        let E := fresh "E" in destruct b eqn:E; try discriminate H
    | match ?x with _ => _ end = Ok _ =>
        let E := fresh "E" in destruct x eqn:E; try discriminate H
    end.

(** ** Values *)

Lemma strict_eq_str v s : strict_eq v (VStr s) = true <-> v = VStr s.
Proof.
  destruct v; simpl; try (split; [done|congruence]).
  rewrite String.eqb_eq. split; congruence.
Qed.

Lemma strict_eq_str_false v s : strict_eq v (VStr s) = false <-> v <> VStr s.
Proof.
  rewrite <- strict_eq_str. by destruct (strict_eq v (VStr s)).
Qed.

Lemma get_defined (pv : value) (k : string) :
  pv <> VUndef -> pv <> VNull -> exists v, get pv k = Ok v.
Proof.
  destruct pv; intros ? ?; simpl; try done; eauto;
    destruct (String.eqb k "length"); eauto.
Qed.

Lemma nth_value_lookup (l : list value) (i : nat) x :
  l !! i = Some x -> nth_value l (Z.of_nat i) = x.
Proof.
  intros Hi. unfold nth_value.
  destruct (Z.ltb_spec (Z.of_nat i) 0); [lia|]. by rewrite Nat2Z.id, Hi.
Qed.


Lemma array_set_insert (buffer : list value) (i : nat) v :
  (i < length buffer)%nat ->
  array_set buffer (Int (Z.of_nat i)) v = <[i := v]> buffer.
Proof.
  intros Hi. unfold array_set.
  destruct (Z.ltb_spec (Z.of_nat i) 0); [lia|].
  destruct (Z.ltb_spec (Z.of_nat i) (Z.of_nat (length buffer))); [|lia].
  by rewrite Nat2Z.id.
Qed.


(** ** Printing of integers

    [JSON.stringify] separates the coordinates of a position by commas;
    the numerals hold none and are read back without loss, so the text of
    a position determines its coordinates. *)











(** ** Equality of positions *)




(** ** Comparison and sorting of positions *)

Lemma comparePosPat_pos3 x y z x' y' z' :
  comparePosPat (pos3 (x, y, z)) (pos3 (x', y', z'))
  = Ok (VInt (firstNonzero [z' - z; y' - y; x' - x])).
Proof.
  unfold comparePosPat, pos3, posPat. simpl.
  destruct (z' - z =? 0) eqn:Ez; simpl; [|done].
  destruct (y' - y =? 0) eqn:Ey; simpl; [|done].
  destruct (x' - x =? 0) eqn:Ex; simpl; [|done].
  apply Z.eqb_eq in Ex. by rewrite Ex.
Qed.

Lemma not_after_descending a b c :
  comparePosPat (pos3 a) (pos3 b) = Ok c ->
  (not_after c = true <-> descending a b).
Proof.
  destruct a as [[x y] z], b as [[x' y'] z'].
  rewrite comparePosPat_pos3. intros [= <-].
  unfold not_after, descending. simpl.
  destruct (Z.eqb_spec (z' - z) 0), (Z.eqb_spec (y' - y) 0),
    (Z.eqb_spec (x' - x) 0); rewrite Z.leb_le; lia.
Qed.

Lemma descending_total a b : descending a b \/ descending b a.
Proof.
  destruct a as [[x y] z], b as [[x' y'] z']. unfold descending. lia.
Qed.

Lemma descending_trans a b c :
  descending a b -> descending b c -> descending a c.
Proof.
  destruct a as [[x y] z], b as [[x' y'] z'], c as [[x'' y''] z''].
  unfold descending. lia.
Qed.

Lemma sort_insert_pos3 p l :
  StronglySorted descending l ->
  exists out, sort_insert comparePosPat (pos3 p) (map pos3 l)
              = Ok (map pos3 out)
              /\ p :: l ≡ₚ out /\ StronglySorted descending out.
Proof.
  induction l as [|q l IH]; intros Hs; simpl.
  - exists [p]. repeat split; [done|]. repeat constructor.
  - destruct (comparePosPat (pos3 p) (pos3 q)) as [c| |] eqn:Ec;
      try (destruct p as [[? ?] ?], q as [[? ?] ?];
           rewrite comparePosPat_pos3 in Ec; done).
    pose proof (not_after_descending _ _ _ Ec) as Hc. simpl.
    apply StronglySorted_inv in Hs as [Hl Hq].
    destruct (not_after c).
    + exists (p :: q :: l). repeat split; [done|].
      assert (Hpq : descending p q) by by apply Hc.
      constructor; [by constructor|]. constructor; [done|].
      eapply Forall_impl; [exact Hq|]. intros r Hr.
      by eapply descending_trans.
    + destruct (IH Hl) as (out & -> & Hp & Hso). simpl.
      exists (q :: out). repeat split.
      * by rewrite Permutation_swap, Hp.
      * constructor; [done|]. rewrite <- Hp. constructor; [|done].
        destruct (descending_total p q) as [Hpq|]; [|done].
        apply Hc in Hpq. done.
Qed.

Lemma sort_defined_pos3 l :
  exists out, sort_defined comparePosPat (map pos3 l) = Ok (map pos3 out)
              /\ l ≡ₚ out /\ StronglySorted descending out.
Proof.
  induction l as [|p l (out & E & Hp & Hs)]; simpl.
  - exists []. repeat split; [done|constructor].
  - rewrite E. simpl.
    destruct (sort_insert_pos3 p out Hs) as (out' & -> & Hp' & Hs').
    exists out'. repeat split; [|done]. by rewrite Hp.
Qed.

Lemma filter_defined_pos3 l :
  filter (fun v => defined v = true) (map pos3 l) = map pos3 l
  /\ filter (fun v => defined v = false) (map pos3 l) = [].
Proof.
  induction l as [|[[x y] z] l [IH1 IH2]]; [done|]. simpl.
  rewrite filter_cons_True by done. rewrite filter_cons_False by done.
  by rewrite IH1, IH2.
Qed.

Lemma array_sort_pos3 l :
  exists out, array_sort comparePosPat (map pos3 l) = Ok (map pos3 out)
              /\ l ≡ₚ out /\ StronglySorted descending out.
Proof.
  unfold array_sort. destruct (filter_defined_pos3 l) as [-> ->].
  destruct (sort_defined_pos3 l) as (out & -> & Hp & Hs). simpl.
  exists out. by rewrite app_nil_r.
Qed.


(** ** Position-set builder *)

Lemma fillGap_unfold fuel pos next sliceSpacing nextZ :
  fillGap fuel pos next sliceSpacing nextZ =
  (z1 ← index next 2;
   let diff := num_abs (num_sub nextZ (to_number z1)) in
   if num_geb diff (to_number sliceSpacing) then
     match fuel with
     | O => OutOfFuel
     | S fuel' =>
         x ← index pos 0;
         y ← index pos 1;
         r ← fillGap fuel' pos next sliceSpacing
               (num_sub nextZ (to_number sliceSpacing));
         Ok (VArr [x; y; VNum nextZ] :: r)
     end
   else Ok []).
Proof. destruct fuel; reflexivity. Qed.




Lemma index_pos3_z p : index (pos3 p) 2 = Ok (VInt p.2).
Proof. by destruct p as [[x y] z]. Qed.









(** ** Frame merging *)

Lemma offsetOf_inj rgb n k l c k' l' c' :
  (l < n)%nat -> (l' < n)%nat ->
  (c < channels rgb)%nat -> (c' < channels rgb)%nat ->
  offsetOf rgb n k l c = offsetOf rgb n k' l' c' ->
  k = k' /\ l = l' /\ c = c'.
Proof.
  unfold offsetOf. intros Hl Hl' Hc Hc' E.
  assert (E2 : (k * n + l = k' * n + l')%nat /\ c = c').
  { revert E Hc Hc'. generalize (k * n + l)%nat (k' * n + l')%nat.
    unfold channels. destruct rgb; cbv iota; lia. }
  destruct E2 as [E2 ->].
  assert (k = k') by nia. subst. lia.
Qed.

Lemma offsetOf_lt rgb n k l c slices :
  (k < slices)%nat -> (l < n)%nat -> (c < channels rgb)%nat ->
  (offsetOf rgb n k l c < channels rgb * n * slices)%nat.
Proof.
  unfold offsetOf. generalize (channels rgb). intros m Hk Hl Hc.
  assert (k * n + l + 1 <= n * slices)%nat by nia.
  assert (m * (k * n + l + 1) <= m * (n * slices))%nat
    by (apply Nat.mul_le_mono_l; lia).
  lia.
Qed.

Lemma findIndexPosPat_from_range arr val i :
  findIndexPosPat_from arr val i = -1
  \/ i <= findIndexPosPat_from arr val i < i + Z.of_nat (length arr).
Proof.
  revert i. induction arr as [|a arr IH]; intros i; simpl; [by left|].
  destruct (equalPosPat val a); [right; lia|].
  destruct (IH (i + 1)) as [->|?]; [by left|right; lia].
Qed.

Lemma findIndexPosPat_lt arr val :
  0 <= findIndexPosPat arr val ->
  findIndexPosPat arr val < Z.of_nat (length arr).
Proof.
  unfold findIndexPosPat.
  destruct (findIndexPosPat_from_range arr val 0); lia.
Qed.




Lemma offset_number (rgb : bool) n kf l0 c :
  num_add (num_mul (Int (if rgb then 3 else 1))
             (num_add (Int (Z.of_nat n * Z.of_nat kf)) (Int (Z.of_nat l0))))
          (Int (Z.of_nat c))
  = Int (Z.of_nat (offsetOf rgb n kf l0 c)).
Proof.
  unfold offsetOf, channels. simpl. f_equal. destruct rgb; lia.
Qed.

Lemma offset_number0 (rgb : bool) n kf l0 :
  num_mul (Int (if rgb then 3 else 1))
    (num_add (Int (Z.of_nat n * Z.of_nat kf)) (Int (Z.of_nat l0)))
  = Int (Z.of_nat (offsetOf rgb n kf l0 0)).
Proof. rewrite <- offset_number. simpl. f_equal. lia. Qed.

Lemma mergePixel_lookup rgb pv pix n slices f kf l0 buffer :
  length buffer = (channels rgb * n * slices)%nat ->
  (kf < slices)%nat -> (l0 < n)%nat ->
  (rgb = true -> pv <> VUndef /\ pv <> VNull) ->
  exists buffer',
    mergePixel rgb pv pix (Int (Z.of_nat n * Z.of_nat f))
      (Int (Z.of_nat n * Z.of_nat kf)) (Z.of_nat l0) buffer = Ok buffer'
    /\ length buffer' = length buffer
    /\ forall k l c,
        (k < slices)%nat -> (l < n)%nat -> (c < channels rgb)%nat ->
        buffer' !! offsetOf rgb n k l c =
          if bool_decide (k = kf /\ l = l0) && marks pix n f l0
          then Some (channel rgb pv c)
          else buffer !! offsetOf rgb n k l c.
Proof.
  intros Hlen Hkf Hl0 Hpv. unfold mergePixel.
  change (negb (strict_eq (nth_number pix
            (num_add (Int (Z.of_nat n * Z.of_nat f)) (Int (Z.of_nat l0))))
            (VInt 0))) with (marks pix n f l0).
  destruct (marks pix n f l0); cycle 1.
  { exists buffer. repeat split. intros. by rewrite andb_false_r. }
  assert (Hin : forall c, (c < channels rgb)%nat ->
                          (offsetOf rgb n kf l0 c < length buffer)%nat).
  { intros c Hc. rewrite Hlen. by apply offsetOf_lt. }
  assert (Hne : forall k l c c', (l < n)%nat -> (c < channels rgb)%nat ->
                  (c' < channels rgb)%nat ->
                  offsetOf rgb n kf l0 c' = offsetOf rgb n k l c ->
                  k = kf /\ l = l0 /\ c = c').
  { intros k l c c' ? ? ? E.
    apply offsetOf_inj in E as (-> & -> & ->); done. }
  pose proof (offset_number0 rgb n kf l0) as E0.
  assert (E1 : forall c,
             num_add (Int (Z.of_nat (offsetOf rgb n kf l0 0))) (Int (Z.of_nat c))
             = Int (Z.of_nat (offsetOf rgb n kf l0 c))).
  { intros c. simpl. f_equal. unfold offsetOf. lia. }
  destruct rgb; cbn [channels] in *.
  - destruct (Hpv eq_refl) as [Hu Hn].
    destruct (get_defined pv "r" Hu Hn) as [r Hr].
    destruct (get_defined pv "g" Hu Hn) as [g Hg].
    destruct (get_defined pv "b" Hu Hn) as [b Hb].
    rewrite Hr, Hg, Hb. cbn [mbind result_bind bind].
    rewrite E0. change (Int 1) with (Int (Z.of_nat 1)).
    change (Int 2) with (Int (Z.of_nat 2)). rewrite !E1.
    rewrite (array_set_insert buffer) by (apply Hin; lia).
    rewrite (array_set_insert (<[_:=_]> buffer))
      by (rewrite length_insert; apply Hin; lia).
    rewrite array_set_insert by (rewrite !length_insert; apply Hin; lia).
    eexists. split; [done|]. split; [by rewrite !length_insert|].
    intros k l c Hk Hl Hc. rewrite andb_true_r.
    case_bool_decide as Hkl.
    + destruct Hkl as [-> ->].
      assert (Hc3 : c = 0%nat \/ c = 1%nat \/ c = 2%nat) by lia.
      destruct Hc3 as [-> | [-> | ->]]; unfold channel.
      * rewrite list_lookup_insert_ne, list_lookup_insert_ne,
          list_lookup_insert_eq, Hr; try done.
        -- apply Hin; lia.
        -- unfold offsetOf; lia.
        -- unfold offsetOf; lia.
      * rewrite list_lookup_insert_ne, list_lookup_insert_eq, Hg; try done.
        -- rewrite length_insert. apply Hin; lia.
        -- unfold offsetOf; lia.
      * rewrite list_lookup_insert_eq, Hb; try done.
        rewrite !length_insert. apply Hin; lia.
    + rewrite !list_lookup_insert_ne; [done|..];
        intros E; apply Hne in E; try lia; naive_solver.
  - rewrite E0. rewrite array_set_insert by (apply Hin; lia).
    eexists. split; [done|]. split; [by rewrite length_insert|].
    intros k l c Hk Hl Hc. rewrite andb_true_r.
    case_bool_decide as Hkl.
    + destruct Hkl as [-> ->]. replace c with 0%nat by lia.
      rewrite list_lookup_insert_eq; [done|]. apply Hin; lia.
    + rewrite list_lookup_insert_ne; [done|].
      intros E; apply Hne in E; try lia; naive_solver.
Qed.

Lemma mergePixels_lookup rgb pv pix n slices f kf cnt :
  forall l0 buffer,
  length buffer = (channels rgb * n * slices)%nat ->
  (kf < slices)%nat -> (l0 + cnt <= n)%nat ->
  (rgb = true -> pv <> VUndef /\ pv <> VNull) ->
  exists buffer',
    mergePixels_from rgb pv pix (Int (Z.of_nat n * Z.of_nat f))
      (Int (Z.of_nat n * Z.of_nat kf)) (Z.of_nat l0) cnt buffer = Ok buffer'
    /\ length buffer' = length buffer
    /\ forall k l c,
        (k < slices)%nat -> (l < n)%nat -> (c < channels rgb)%nat ->
        buffer' !! offsetOf rgb n k l c =
          if bool_decide (k = kf /\ (l0 <= l < l0 + cnt)%nat)
             && marks pix n f l
          then Some (channel rgb pv c)
          else buffer !! offsetOf rgb n k l c.
Proof.
  induction cnt as [|cnt IH]; intros l0 buffer Hlen Hkf Hl0 Hpv.
  - exists buffer. repeat split. intros k l c _ _ _.
    rewrite bool_decide_eq_false_2 by lia. done.
  - cbn [mergePixels_from].
    destruct (mergePixel_lookup rgb pv pix n slices f kf l0 buffer)
      as (buffer1 & -> & Hlen1 & H1); [done|done|lia|done|].
    cbn [mbind result_bind bind].
    replace (Z.of_nat l0 + 1) with (Z.of_nat (S l0)) by lia.
    destruct (IH (S l0) buffer1) as (buffer' & -> & Hlen' & H');
      [congruence|done|lia|done|].
    exists buffer'. split; [done|]. split; [congruence|].
    intros k l c Hk Hl Hc. rewrite H', H1 by done.
    destruct (decide (k = kf /\ l = l0)) as [[-> ->]|Hne].
    + rewrite (bool_decide_eq_false_2 (_ /\ (S l0 <= _ < _)%nat)) by lia.
      rewrite !bool_decide_eq_true_2 by lia. done.
    + rewrite (bool_decide_eq_false_2 (k = kf /\ l = l0)) by done.
      cbn [andb].
      destruct (decide (k = kf /\ (S l0 <= l < S l0 + cnt)%nat)).
      * rewrite !bool_decide_eq_true_2 by lia. done.
      * rewrite !bool_decide_eq_false_2 by lia. done.
Qed.

Lemma mergeFrames_from_lookup segments posPats pix rgb n infos :
  forall f buffer,
  length buffer = (channels rgb * n * length posPats)%nat ->
  Forall (resolves segments posPats rgb) infos ->
  exists out,
    mergeFrames_from segments posPats (Int (Z.of_nat n)) rgb pix
      (Z.of_nat f) infos buffer = Ok out
    /\ length out = length buffer
    /\ forall k l c init,
        (k < length posPats)%nat -> (l < n)%nat -> (c < channels rgb)%nat ->
        buffer !! offsetOf rgb n k l c = Some init ->
        out !! offsetOf rgb n k l c
        = Some (voxel segments posPats pix rgb n k l c f infos init).
Proof.
  induction infos as [|info infos IH]; intros f buffer Hlen Hres.
  - exists buffer. repeat split. intros. done.
  - apply Forall_cons in Hres as [(Hidx & seg & Hseg & Hdv) Hres].
    cbn [mergeFrames_from]. unfold mergeFrame. rewrite Hseg.
    pose proof (findIndexPosPat_lt _ _ Hidx) as Hlt.
    set (kf := Z.to_nat (findIndexPosPat posPats (imagePosPat info))).
    assert (Ekf : findIndexPosPat posPats (imagePosPat info) = Z.of_nat kf)
      by lia.
    rewrite Ekf. cbn [num_mul trip_count to_number].
    rewrite Nat2Z.id.
    destruct (mergePixels_lookup rgb (displayValue seg) pix n
                (length posPats) f kf n 0 buffer)
      as (buffer1 & E1 & Hlen1 & H1); [done|lia|lia|done|].
    change (Z.of_nat 0) with 0 in E1. rewrite E1.
    cbn [mbind result_bind bind].
    replace (Z.of_nat f + 1) with (Z.of_nat (S f)) by lia.
    destruct (IH (S f) buffer1) as (out & -> & Hlen' & H');
      [congruence|done|].
    exists out. split; [done|]. split; [congruence|].
    intros k l c init Hk Hl Hc Hinit. cbn [voxel]. rewrite Hseg.
    apply H'; try done. rewrite H1 by done. rewrite Hinit.
    destruct (decide (k = kf)) as [->|Hne].
    + rewrite !bool_decide_eq_true_2 by lia. by destruct (marks pix n f l).
    + rewrite !bool_decide_eq_false_2 by lia. done.
Qed.







(** ** Segments *)

Section Segments.
Context `{Env}.

Lemma getSegment_grayscale_fails fs :
  defined (lookup_field "x0062000C" fs) = true ->
  lookup_field "x006200C" fs = VUndef ->
  forall s, getSegment (VObj fs) <> Ok s.
Proof.
  intros Hgray Hkey s Hs. unfold getSegment in Hs.
  cbn [get] in Hs. bind_ok Hs.
  match goal with
  | Hd : (if defined _ then _ else _) = Ok _ |- _ =>
      rewrite Hgray in Hd; unfold element_value in Hd; cbn [get] in Hd;
      rewrite Hkey in Hd; discriminate Hd
  end.
Qed.

Lemma isSimilarSegment_rgb_other s1 s2 r :
  get (displayValue s1) "r" = Ok r -> defined r = true ->
  get (displayValue s2) "r" = Ok VUndef ->
  isSimilarSegment (Seg s1) (Seg s2) = Ok false.
Proof.
  intros H1 Hr H2. unfold isSimilarSegment. rewrite H1.
  cbn [mbind result_bind bind]. rewrite Hr, H2. done.
Qed.

End Segments.

(** C3 fails on the code: [getSegment] tests the tag [x0062000C] and then
    reads the property [x006200C], one digit short.  An item that holds the
    grayscale tag, and no property of the short name, never yields a
    segment; on the sample item the read throws a [TypeError]. *)
Theorem getSegment_grayscale_throws :
  (forall (E : Env) (fs : list (string * value)),
      defined (lookup_field "x0062000C" fs) = true ->
      lookup_field "x006200C" fs = VUndef ->
      forall s, getSegment (VObj fs) <> Ok s)
  /\ (exists fs, Sample.grayItem = VObj fs
                 /\ lookup_field "x0062000C" fs = Sample.element [VInt 5])
  /\ @getSegment Sample.env Sample.grayItem = Throw TypeError.
Proof.
  split; [exact @getSegment_grayscale_fails|]. split; [|reflexivity].
  eexists. split; reflexivity.
Qed.

(** C7 fails on the code: a segment with a colour is never similar to a
    segment whose display value has no [r], equal numbers or not, while
    the comparison the other way round goes by the numbers. *)
Theorem isSimilarSegment_rgb_against_scalar :
  (forall s1 s2 r,
      get (displayValue s1) "r" = Ok r -> defined r = true ->
      get (displayValue s2) "r" = Ok VUndef ->
      isSimilarSegment (Seg s1) (Seg s2) = Ok false)
  /\ number Sample.rgbSegment = number Sample.scalarSegment
  /\ isSimilarSegment (Seg Sample.rgbSegment) (Seg Sample.scalarSegment)
     = Ok false
  /\ isSimilarSegment (Seg Sample.scalarSegment) (Seg Sample.rgbSegment)
     = Ok true.
Proof.
  split; [exact isSimilarSegment_rgb_other|]. repeat split.
Qed.

(** ** Validator *)

Section Validator.
Context `{Env}.

(** C9: a transfer syntax with a decompression algorithm is refused with
    an error that names the algorithm; otherwise a segmentation type that
    is missing, empty or, once cleaned, not "BINARY" is refused as an
    invalid segmentation type; otherwise a dimension organization type
    that is present (a value that is not empty) and, once cleaned, not
    "3D" is refused as an unsupported dimension organization; and when
    the three checks pass nothing is raised. *)
Theorem checkDicomSeg_verdict (rootElement : value) :
  let syntax := cleanString (getFromKey rootElement "x00020010" false) in
  let segmentationType := getFromKey rootElement "x00620001" false in
  let dimOrgType := getFromKey rootElement "x00209311" false in
  (forall algoName,
      getSyntaxDecompressionName syntax = Some algoName ->
      checkDicomSeg rootElement
      = Throw (Error ("Unsupported compressed segmentation: " +:+ algoName))
      /\ inClass (Error ("Unsupported compressed segmentation: "
                         +:+ algoName)) UnsupportedTransferSyntax)
  /\ (getSyntaxDecompressionName syntax = None ->
      truthy segmentationType = false
      \/ cleanString segmentationType <> VStr "BINARY" ->
      exists e, checkDicomSeg rootElement = Throw e
                /\ inClass e InvalidSegmentationType)
  /\ (getSyntaxDecompressionName syntax = None ->
      truthy segmentationType = true ->
      cleanString segmentationType = VStr "BINARY" ->
      truthy dimOrgType = true ->
      cleanString dimOrgType <> VStr "3D" ->
      exists e, checkDicomSeg rootElement = Throw e
                /\ inClass e UnsupportedDimensionOrganization)
  /\ (getSyntaxDecompressionName syntax = None ->
      truthy segmentationType = true ->
      cleanString segmentationType = VStr "BINARY" ->
      truthy dimOrgType = false \/ cleanString dimOrgType = VStr "3D" ->
      checkDicomSeg rootElement = Ok tt).
Proof.
  intros syntax segmentationType dimOrgType. unfold checkDicomSeg.
  fold syntax segmentationType dimOrgType.
  split; [|split; [|split]].
  - intros algoName ->. split; [done|constructor].
  - intros -> [Hmissing|Hother].
    + rewrite Hmissing. simpl. eexists. split; [done|constructor].
    + destruct (truthy segmentationType); simpl;
        [|eexists; split; [done|constructor]].
      apply strict_eq_str_false in Hother. rewrite Hother. simpl.
      eexists. split; [done|constructor].
  - intros -> -> Htype -> Horg. simpl.
    apply strict_eq_str in Htype. rewrite Htype. simpl.
    apply strict_eq_str_false in Horg. rewrite Horg. simpl.
    eexists. split; [done|constructor].
  - intros -> -> Htype Horg. simpl.
    apply strict_eq_str in Htype. rewrite Htype. simpl.
    destruct Horg as [->|Horg]; [done|].
    apply strict_eq_str in Horg. rewrite Horg.
    by destruct (truthy dimOrgType).
Qed.

End Validator.

(** The four outcomes on the sample trees. *)
Lemma checkDicomSeg_verdict_witness :
  @checkDicomSeg Sample.env Sample.compressed
  = Throw (Error "Unsupported compressed segmentation: jpeg-baseline")
  /\ (exists e, @checkDicomSeg Sample.env Sample.fractional = Throw e
                /\ inClass e InvalidSegmentationType)
  /\ (exists e, @checkDicomSeg Sample.env Sample.tiled = Throw e
                /\ inClass e UnsupportedDimensionOrganization)
  /\ @checkDicomSeg Sample.env Sample.dicomElements = Ok tt.
Proof.
  split; [|split; [|split]].
  - apply (proj1 (@checkDicomSeg_verdict Sample.env Sample.compressed)).
    reflexivity.
  - apply (proj1 (proj2
             (@checkDicomSeg_verdict Sample.env Sample.fractional)));
      [reflexivity|]. right. discriminate.
  - apply (proj1 (proj2 (proj2
             (@checkDicomSeg_verdict Sample.env Sample.tiled))));
      try reflexivity. discriminate.
  - apply (proj2 (proj2 (proj2
             (@checkDicomSeg_verdict Sample.env Sample.dicomElements))));
      try reflexivity. by left.
Defined.

(** ** The factory *)

Section Factory.
Context `{Env}.

Lemma buildImage_meta dicomElements info infos orientation sp posPats
    buffer img :
  buildImage dicomElements info infos orientation sp posPats buffer = Ok img ->
  Modality (image_meta img) = "SEG"
  /\ SegmentationType (image_meta img) = "BINARY"
  /\ DimensionOrganizationType (image_meta img) = "3D"
  /\ BitsStored (image_meta img) = 8.
Proof.
  unfold buildImage. intros Hb. bind_ok Hb. by injection Hb as <-.
Qed.

Lemma assemble_meta fuel dicomElements pixelBuffer info infos img :
  assemble fuel dicomElements pixelBuffer info infos = Ok img ->
  Modality (image_meta img) = "SEG"
  /\ SegmentationType (image_meta img) = "BINARY"
  /\ DimensionOrganizationType (image_meta img) = "3D"
  /\ BitsStored (image_meta img) = 8.
Proof.
  unfold assemble. intros Ha. bind_ok Ha; eauto using buildImage_meta.
Qed.

(** C10: the meta data of every image the factory returns carries
    Modality "SEG", SegmentationType "BINARY", DimensionOrganizationType
    "3D" and BitsStored 8, whatever the input holds. *)
Theorem create_meta_constants fuel dicomElements pixelBuffer st img :
  create fuel dicomElements pixelBuffer = (st, Ok img) ->
  Modality (image_meta img) = "SEG"
  /\ SegmentationType (image_meta img) = "BINARY"
  /\ DimensionOrganizationType (image_meta img) = "3D"
  /\ BitsStored (image_meta img) = 8.
Proof.
  unfold create. intros Hc.
  destruct (_ ≫= _) as [[info seq]| |] in Hc; [|discriminate Hc..].
  destruct (readFrameInfos seq) as [seq' infos].
  injection Hc as _ Hc. bind_ok Hc. eauto using assemble_meta.
Qed.


Lemma readBeforeFrames_frames dicomElements pixelBuffer info :
  readBeforeFrames dicomElements pixelBuffer = Ok info ->
  frames info = readFrames dicomElements.
Proof.
  unfold readBeforeFrames. intros Hr.
  destruct (readHeader dicomElements pixelBuffer) as [[s f]| |] eqn:Eh;
    [|discriminate Hr..].
  cbn [mbind result_bind bind] in Hr. bind_ok Hr.
  injection Hr as <-. simpl.
  unfold readHeader in Eh. bind_ok Eh. by injection Eh as _ <-.
Qed.


End Factory.


(** The sample tree has no dimension organization type and decodes to an
    image that reports "3D". *)
Lemma create_meta_constants_witness :
  getFromKey Sample.dicomElements "x00209311" false = VUndef
  /\ exists st img,
       @create Sample.env 1 Sample.dicomElements Sample.pixelBuffer
       = (st, Ok img)
       /\ Modality (image_meta img) = "SEG"
       /\ SegmentationType (image_meta img) = "BINARY"
       /\ DimensionOrganizationType (image_meta img) = "3D"
       /\ BitsStored (image_meta img) = 8.
Proof.
  split; [reflexivity|].
  destruct (@create Sample.env 1 Sample.dicomElements Sample.pixelBuffer)
    as [st [img| |]] eqn:Ec;
    try (vm_compute in Ec; discriminate Ec).
  exists st, img. split; [reflexivity|].
  exact (@create_meta_constants Sample.env 1%nat Sample.dicomElements
           Sample.pixelBuffer st img Ec).
Defined.

(** ** What the decode writes *)





Section Frame.
Context `{Env}.




Lemma readPerFrameSequence_value frames dicomElements seq :
  readPerFrameSequence frames dicomElements = Ok seq ->
  seq = getFromKey dicomElements "x52009230" true.
Proof.
  unfold readPerFrameSequence. intros Hr. bind_ok Hr. congruence.
Qed.



End Frame.



(** * Further properties

    Edge and error behaviour of the same functions, invariants of the
    loops of [create], and how the readers compose. *)

(** ** More on values *)

Lemma Ok_inj {A} (a b : A) : Ok a = Ok b -> a = b.
Proof. congruence. Qed.

Lemma number_eqb_eq a b : number_eqb a b = true -> a = b.
Proof.
  destruct a, b; simpl; try done. by intros ->%Z.eqb_eq.
Qed.

Lemma strict_eq_true a b : strict_eq a b = true -> a = b.
Proof.
  destruct a as [| |x| | |], b as [| |y| | |]; simpl; try done.
  - by intros ->%number_eqb_eq.
  - by intros ->%String.eqb_eq.
Qed.






Lemma array_set_length l i v :
  i < Z.of_nat (length l) -> length (array_set l (Int i) v) = length l.
Proof.
  intros Hi. unfold array_set. destruct (Z.ltb_spec i 0); [done|].
  destruct (Z.ltb_spec i (Z.of_nat (length l))); [|lia].
  by rewrite length_insert.
Qed.

(** A loop over an array returns what its body returns on each entry. *)
Lemma for_each_from_array {A} (f : value -> result A) (l : list value) n :
  forall (i : nat) (r : list A),
  (i + n)%nat = length l ->
  for_each_from f (VArr l) (Z.of_nat i) n = Ok r
  <-> Forall2 (fun x a => f x = Ok a) (drop i l) r.
Proof.
  induction n as [|n IH]; intros i r Hl.
  - rewrite drop_ge by lia. simpl. split.
    + intros [= <-]. constructor.
    + by intros ->%Forall2_nil_inv_l.
  - destruct (lookup_lt_is_Some_2 l i) as [x Hx]; [lia|].
    cbn [for_each_from index]. rewrite (nth_value_lookup _ _ _ Hx).
    cbn [mbind result_bind bind]. rewrite (drop_S _ _ _ Hx).
    replace (Z.of_nat i + 1) with (Z.of_nat (S i)) by lia.
    split.
    + intros Hf. destruct (f x) as [a| |] eqn:Ea;
        cbn [mbind result_bind bind] in Hf; try discriminate Hf.
      destruct (for_each_from f (VArr l) (Z.of_nat (S i)) n) as [r'| |] eqn:Er;
        cbn [mbind result_bind bind] in Hf; try discriminate Hf.
      injection Hf as <-. constructor; [done|]. apply IH; [lia|done].
    + intros Hf. apply Forall2_cons_inv_l in Hf as (a & r' & Ha & Hr & ->).
      rewrite Ha. cbn [mbind result_bind bind].
      apply IH in Hr; [|lia]. by rewrite Hr.
Qed.

Lemma for_each_array {A} (f : value -> result A) (l : list value) r :
  for_each f (VArr l) = Ok r <-> Forall2 (fun x a => f x = Ok a) l r.
Proof.
  unfold for_each.
  cbn [get String.eqb Ascii.eqb Bool.eqb mbind result_bind bind].
  cbn [trip_count to_number VInt]. rewrite Nat2Z.id.
  apply (for_each_from_array f l (length l) 0 r). done.
Qed.

Lemma for_each_from_count {A} (f : value -> result A) arr n :
  forall i r, for_each_from f arr i n = Ok r ->
  length r = n /\ Forall (fun a => exists x, f x = Ok a) r.
Proof.
  induction n as [|n IH]; intros i r Hf.
  - injection Hf as <-. by split; [|constructor].
  - cbn [for_each_from] in Hf. bind_ok Hf. injection Hf as <-.
    match goal with
    | E : for_each_from _ _ _ _ = Ok _ |- _ =>
        destruct (IH _ _ E) as [Hl Hall]
    end.
    split; [simpl; by rewrite Hl|]. constructor; [by eexists|done].
Qed.

(** ** More on the comparison of positions *)





Lemma index_posPat (a : list Z) (i : nat) :
  index (posPat a) (Z.of_nat i)
  = Ok (match a !! i with Some x => VInt x | None => VUndef end).
Proof.
  unfold posPat, index, nth_value.
  destruct (Z.ltb_spec (Z.of_nat i) 0); [lia|].
  rewrite Nat2Z.id, list_lookup_fmap. by destruct (a !! i).
Qed.

Lemma length_posPat (a : list Z) :
  get (posPat a) "length" = Ok (VInt (Z.of_nat (length a))).
Proof. unfold posPat. simpl. by rewrite length_map. Qed.





(** X2: [comparePosPat] takes the number of axes from its first argument
    alone: an empty first position compares as null with anything, an
    undefined one throws a [TypeError], and a second position with fewer
    coordinates than the first compares as NaN. *)
Theorem comparePosPat_lengths (a b : list Z) (pos2 : value) :
  comparePosPat (VArr []) pos2 = Ok VNull
  /\ comparePosPat VUndef pos2 = Throw TypeError
  /\ ((length b < length a)%nat ->
      comparePosPat (posPat a) (posPat b) = Ok (VNum NaN)).
Proof.
  split; [done|]. split; [done|]. intros Hl. unfold comparePosPat.
  rewrite length_posPat.
  cbn [mbind result_bind bind trip_count to_number VInt]. rewrite Nat2Z.id.
  destruct (length a) as [|i] eqn:Ea; [lia|].
  cbn [comparePosPat_from]. rewrite !index_posPat.
  rewrite (lookup_ge_None_2 b i) by lia.
  by destruct (a !! i).
Qed.

Lemma comparePosPat_lengths_witness :
  comparePosPat (posPat [1; 2; 3]) (posPat [1; 2]) = Ok (VNum NaN).
Proof.
  apply (proj2 (proj2 (comparePosPat_lengths [1; 2; 3] [1; 2] VUndef))).
  simpl. lia.
Defined.

(** ** The local helpers of [create] *)

Lemma equalPosPat_sym a b : equalPosPat a b = equalPosPat b a.
Proof. unfold equalPosPat. apply bool_decide_ext. split; congruence. Qed.

Lemma equalPosPat_refl a : equalPosPat a a = true.
Proof. unfold equalPosPat. by apply bool_decide_eq_true. Qed.

Lemma includesPosPat_false arr val :
  includesPosPat arr val = false
  <-> forall x, x ∈ arr -> equalPosPat val x = false.
Proof.
  unfold includesPosPat. induction arr as [|y arr IH]; simpl.
  - split; [|done]. intros _ x Hx. by apply elem_of_nil in Hx.
  - rewrite orb_false_iff, IH. split.
    + intros [Hy Ha] x [->|Hx]%elem_of_cons; auto.
    + intros Hall. split; [apply Hall; by left|].
      intros x Hx. apply Hall. by right.
Qed.



Lemma findIndexPosPat_from_least arr val :
  forall i (k : nat), 0 <= i ->
  findIndexPosPat_from arr val i = i + Z.of_nat k
  <-> (exists x, arr !! k = Some x /\ equalPosPat val x = true)
      /\ (forall j y, (j < k)%nat -> arr !! j = Some y ->
                      equalPosPat val y = false).
Proof.
  induction arr as [|x arr IH]; intros i k Hi.
  - simpl. split; [lia|]. by intros [(y & Hy & _) _].
  - cbn [findIndexPosPat_from]. destruct (equalPosPat val x) eqn:E.
    + split.
      * intros Hk. assert (k = 0%nat) as -> by lia. split; [by exists x|].
        intros; lia.
      * intros [_ Hj]. destruct k as [|k]; [lia|].
        specialize (Hj 0%nat x). rewrite E in Hj. discriminate Hj; [lia|done].
    + destruct k as [|k].
      * split.
        -- pose proof (findIndexPosPat_from_range arr val (i + 1)). lia.
        -- intros [(y & [= <-] & Hy) _]. congruence.
      * replace (i + Z.of_nat (S k)) with (i + 1 + Z.of_nat k) by lia.
        rewrite IH by lia. simpl. split; intros [Hx Hj]; (split; [done|]).
        -- intros [|j] y Hjk; simpl; [congruence|]. apply Hj. lia.
        -- intros j y Hjk. apply (Hj (S j)). lia.
Qed.

Lemma includesPosPat_findIndex_from arr val :
  forall i, 0 <= i ->
  existsb (fun arrVal => equalPosPat val arrVal) arr
  = negb (findIndexPosPat_from arr val i =? -1).
Proof.
  induction arr as [|x arr IH]; intros i Hi; simpl; [done|].
  destruct (equalPosPat val x); simpl.
  - by destruct (Z.eqb_spec i (-1)); [lia|].
  - apply IH. lia.
Qed.

Lemma includesPosPat_findIndex arr val :
  includesPosPat arr val = negb (findIndexPosPat arr val =? -1).
Proof. by apply includesPosPat_findIndex_from. Qed.

Lemma includesPosPat_range arr val :
  includesPosPat arr val = true
  <-> 0 <= findIndexPosPat arr val < Z.of_nat (length arr).
Proof.
  rewrite includesPosPat_findIndex.
  pose proof (findIndexPosPat_from_range arr val 0) as Hr.
  fold (findIndexPosPat arr val) in Hr.
  destruct (Z.eqb_spec (findIndexPosPat arr val) (-1)); simpl; split;
    try done; lia.
Qed.

(** X3: [findIndexPosPat] returns -1 exactly when [includesPosPat] is
    false; otherwise it returns an index of the array, the least one whose
    entry is [equalPosPat] to the value looked for. *)
Theorem findIndexPosPat_least (arr : list value) (val : value) :
  (includesPosPat arr val = false <-> findIndexPosPat arr val = -1)
  /\ (includesPosPat arr val = true
      <-> 0 <= findIndexPosPat arr val < Z.of_nat (length arr))
  /\ (forall k : nat,
        findIndexPosPat arr val = Z.of_nat k
        <-> (exists x, arr !! k = Some x /\ equalPosPat val x = true)
            /\ (forall j y, (j < k)%nat -> arr !! j = Some y ->
                            equalPosPat val y = false)).
Proof.
  split; [|split; [apply includesPosPat_range|]].
  - rewrite includesPosPat_findIndex.
    by destruct (Z.eqb_spec (findIndexPosPat arr val) (-1)).
  - intros k. apply (findIndexPosPat_from_least arr val 0 k). lia.
Qed.

Lemma every_equal_pairwise l0 :
  forall (l1 : list value) (i : nat),
  (i + length l0)%nat = length l1 ->
  exists b, every_equal l0 (VArr l1) (Z.of_nat i) = Ok b
            /\ (b = true <-> Forall2 strictlyEqual l0 (drop i l1)).
Proof.
  induction l0 as [|x l0 IH]; intros l1 i Hl.
  - exists true. split; [done|]. rewrite drop_ge by (simpl in Hl; lia).
    by split; [constructor|].
  - destruct (lookup_lt_is_Some_2 l1 i) as [y Hy]; [simpl in Hl; lia|].
    cbn [every_equal index]. rewrite (nth_value_lookup _ _ _ Hy).
    cbn [mbind result_bind bind]. rewrite (drop_S _ _ _ Hy).
    destruct (strict_eq x y) eqn:E.
    + replace (Z.of_nat i + 1) with (Z.of_nat (S i)) by lia.
      destruct (IH l1 (S i)) as (b & -> & Hb); [simpl in Hl; lia|].
      exists b. split; [done|]. rewrite Hb. split.
      * by constructor.
      * by inversion 1.
    + exists false. split; [done|]. split; [done|].
      inversion 1; subst. unfold strictlyEqual in *. congruence.
Qed.

Lemma arrayEquals_arrays (l0 l1 : list value) :
  exists b, arrayEquals (VArr l0) (VArr l1) = Ok b
            /\ (b = true <-> Forall2 strictlyEqual l0 l1).
Proof.
  unfold arrayEquals.
  cbn [get String.eqb Ascii.eqb Bool.eqb mbind result_bind bind].
  cbn [strict_eq VInt number_eqb].
  destruct (Z.eqb_spec (Z.of_nat (length l0)) (Z.of_nat (length l1)))
    as [E|E]; cbn [negb].
  - destruct (every_equal_pairwise l0 l1 0) as (b & Hb & Hiff); [lia|].
    exists b. by split.
  - exists false. split; [done|]. split; [done|].
    intros Hf%Forall2_length. lia.
Qed.

Lemma strictlyEqual_eq (a b : list value) :
  Forall2 strictlyEqual a b -> a = b.
Proof.
  induction 1 as [|x y a b Hxy _ IH]; [done|].
  by rewrite (strict_eq_true _ _ Hxy), IH.
Qed.

(** X4: [arrayEquals] is false as soon as one side is null; on two arrays
    it returns, and it is true exactly when they have the same length and
    their entries are pairwise strictly equal, in which case the arrays
    hold the same values; an array that holds NaN is not equal to
    itself. *)
Theorem arrayEquals_pairwise (l0 l1 : list value) (v : value) :
  arrayEquals VNull v = Ok false
  /\ arrayEquals v VNull = Ok false
  /\ (exists b, arrayEquals (VArr l0) (VArr l1) = Ok b
                /\ (b = true <-> Forall2 strictlyEqual l0 l1))
  /\ (arrayEquals (VArr l0) (VArr l1) = Ok true -> l0 = l1)
  /\ (VNum NaN ∈ l0 -> arrayEquals (VArr l0) (VArr l0) = Ok false).
Proof.
  split; [done|]. split; [by destruct v|].
  split; [apply arrayEquals_arrays|]. split.
  - destruct (arrayEquals_arrays l0 l1) as (b & -> & Hb). intros [= ->].
    apply strictlyEqual_eq. by apply Hb.
  - intros Hnan. destruct (arrayEquals_arrays l0 l0) as (b & -> & Hb).
    f_equal. destruct b; [|done]. exfalso.
    destruct Hb as [Hf _]. specialize (Hf eq_refl).
    apply list_elem_of_lookup in Hnan as [i Hi].
    by pose proof (Forall2_lookup_lr _ _ _ _ _ _ Hf Hi Hi).
Qed.

Lemma arrayEquals_pairwise_witness :
  arrayEquals (VArr [VInt 1; VNum NaN]) (VArr [VInt 1; VNum NaN]) = Ok false.
Proof.
  apply (arrayEquals_pairwise [VInt 1; VNum NaN] [] VNull).
  right. by left.
Defined.

(** ** The check of the frame informations *)

Lemma distinctPosPats_snoc acc p :
  distinctPosPats acc -> includesPosPat acc p = false ->
  distinctPosPats (acc ++ [p]).
Proof.
  intros Hd Hp i j x y Hij Hi Hj.
  rewrite includesPosPat_false in Hp.
  assert (Hjlen : (j < length (acc ++ [p]))%nat) by by eapply lookup_lt_Some.
  rewrite length_app in Hjlen. simpl in Hjlen.
  rewrite lookup_app_l in Hi by lia.
  destruct (decide (j < length acc)%nat) as [Hlt|Hge].
  - rewrite lookup_app_l in Hj by lia. by apply (Hd i j).
  - rewrite lookup_app_r in Hj by lia.
    replace (j - length acc)%nat with 0%nat in Hj by lia.
    injection Hj as <-. rewrite equalPosPat_sym. apply Hp.
    by eapply list_elem_of_lookup_2.
Qed.


Lemma sublist_fmap_inv {A B} (f : A -> B) (ps : list A) :
  forall out, out `sublist_of` (f <$> ps) ->
  exists dd, out = f <$> dd /\ dd `sublist_of` ps.
Proof.
  induction ps as [|p ps IH]; intros out Hs.
  - apply sublist_nil_r in Hs as ->. by exists [].
  - rewrite fmap_cons in Hs.
    apply sublist_cons_r in Hs as [Hs|(out' & -> & Hs)].
    + destruct (IH _ Hs) as (dd & -> & Hdd). exists dd.
      split; [done|]. by apply sublist_cons.
    + destruct (IH _ Hs) as (dd & -> & Hdd). exists (p :: dd).
      split; [done|]. by apply sublist_skip.
Qed.

(** One step of the loop pushes the position of the frame unless the list
    includes it. *)
Lemma checkFrameInfo_positions acc o sp info out o' sp' :
  checkFrameInfo (acc, o, sp) info = Ok (out, o', sp') ->
  out = if includesPosPat acc (imagePosPat info) then acc
        else acc ++ [imagePosPat info].
Proof.
  unfold checkFrameInfo. intros Hc.
  destruct (includesPosPat acc (imagePosPat info)); cbn [negb] in Hc.
  all: match type of Hc with
       | (?m ≫= _) = _ => destruct m; cbn [mbind result_bind bind] in Hc;
                          try discriminate Hc
       end.
  all: match type of Hc with
       | (?m ≫= _) = _ => destruct m; cbn [mbind result_bind bind] in Hc;
                          try discriminate Hc
       end.
  all: by injection Hc as <- _ _.
Qed.

Lemma checkFrameInfos_positions_from infos :
  forall acc o sp out o' sp',
  checkFrameInfos (acc, o, sp) infos = Ok (out, o', sp') ->
  (exists new, out = acc ++ new
               /\ new `sublist_of` (imagePosPat <$> infos))
  /\ (distinctPosPats acc -> distinctPosPats out)
  /\ (forall p, includesPosPat acc p = true -> includesPosPat out p = true)
  /\ (forall info, info ∈ infos ->
                   includesPosPat out (imagePosPat info) = true).
Proof.
  induction infos as [|info infos IH]; intros acc o sp out o' sp' Hc.
  - injection Hc as <- _ _. split; [exists []; by rewrite app_nil_r|].
    split; [done|]. split; [done|]. intros info Hi.
    by apply elem_of_nil in Hi.
  - cbn [checkFrameInfos] in Hc.
    destruct (checkFrameInfo (acc, o, sp) info) as [[[acc1 o1] sp1]| |] eqn:E1;
      cbn [mbind result_bind bind] in Hc; try discriminate Hc.
    apply checkFrameInfo_positions in E1.
    destruct (IH _ _ _ _ _ _ Hc) as ((new & -> & Hsub) & Hd & Hmono & Hall).
    assert (Hstep : forall p, includesPosPat acc p = true ->
                              includesPosPat acc1 p = true).
    { intros p Hp. subst acc1.
      destruct (includesPosPat acc (imagePosPat info)); [done|].
      unfold includesPosPat in *. rewrite existsb_app, Hp. done. }
    assert (Hinfo : includesPosPat acc1 (imagePosPat info) = true).
    { subst acc1.
      destruct (includesPosPat acc (imagePosPat info)) eqn:Ei; [done|].
      unfold includesPosPat. rewrite existsb_app. simpl.
      rewrite equalPosPat_refl. by rewrite orb_true_r. }
    split; [|split; [|split]].
    + rewrite fmap_cons.
      destruct (includesPosPat acc (imagePosPat info)) eqn:Ei; subst acc1.
      * exists new. split; [done|]. by apply sublist_cons.
      * exists (imagePosPat info :: new). rewrite <- app_assoc.
        split; [done|]. by apply sublist_skip.
    + intros Hacc. apply Hd. subst acc1.
      destruct (includesPosPat acc (imagePosPat info)) eqn:Ei; [done|].
      by apply distinctPosPats_snoc.
    + auto.
    + intros i [->|Hi]%elem_of_cons; auto.
Qed.



Lemma spacing_equals_eq values sp :
  spacing_equals values sp = true -> sp = Spacing values.
Proof.
  destruct sp as [| |r]; try done. simpl. intros Hv. f_equal.
  revert r Hv. induction values as [|x values IH]; intros [|y r]; simpl;
    try done.
  intros [Hx Hr]%andb_true_iff. by rewrite (number_eqb_eq _ _ Hx), (IH r).
Qed.

(** One step of the loop keeps an orientation and a spacing once they are
    set, sets them from the frame otherwise, and accepts the frame only
    when it agrees with them. *)
Lemma checkFrameInfo_agrees acc o sp info acc' o' sp' :
  checkFrameInfo (acc, o, sp) info = Ok (acc', o', sp') ->
  (defined o = true -> o' = o)
  /\ (sp <> SUndef -> sp' = sp)
  /\ (defined (imageOrientationPatient info) = true -> defined o' = true)
  /\ (spacing info <> SUndef -> sp' <> SUndef)
  /\ agreesWith o' sp' info.
Proof.
  unfold checkFrameInfo, agreesWith. intros Hc.
  match type of Hc with
  | (?m ≫= _) = _ =>
      destruct m as [o1| |] eqn:Eo; cbn [mbind result_bind bind] in Hc;
      try discriminate Hc
  end.
  match type of Hc with
  | (?m ≫= _) = _ =>
      destruct m as [sp1| |] eqn:Es; cbn [mbind result_bind bind] in Hc;
      try discriminate Hc
  end.
  injection Hc as _ <- <-.
  assert (Ho : (defined o = true -> o1 = o)
               /\ (defined (imageOrientationPatient info) = true ->
                   defined o1 = true
                   /\ (imageOrientationPatient info = o1
                       \/ arrayEquals o1 (imageOrientationPatient info)
                          = Ok true))).
  { destruct (defined (imageOrientationPatient info)) eqn:Ei.
    - destruct (defined o) eqn:Ed; cbn [negb] in Eo.
      + destruct (arrayEquals o _) as [[|]| |] eqn:Ea;
          cbn [mbind result_bind bind negb] in Eo; try discriminate Eo.
        injection Eo as <-. auto.
      + injection Eo as <-. split; [done|]. auto.
    - injection Eo as <-. by split. }
  assert (Hs : (sp <> SUndef -> sp1 = sp)
               /\ (spacing info <> SUndef ->
                   sp1 <> SUndef /\ spacing info = sp1)).
  { destruct (spacing info) as [| |fv] eqn:Ei.
    - injection Es as <-. by split.
    - destruct sp as [| |values]; try discriminate Es.
      injection Es as <-. by split.
    - destruct sp as [| |values]; try discriminate Es.
      + injection Es as <-. by split.
      + destruct (negb (spacing_equals values _)) eqn:En; [discriminate Es|].
        injection Es as <-.
        apply negb_false_iff, spacing_equals_eq in En. by split. }
  destruct Ho as [Ho1 Ho2], Hs as [Hs1 Hs2].
  repeat split; try done; try (intros; by apply Ho2);
    intros; by apply Hs2.
Qed.

(** The spacing and the orientation along the loop. *)
Lemma checkFrameInfos_spacing infos :
  forall acc o sp acc' o' sp',
  checkFrameInfos (acc, o, sp) infos = Ok (acc', o', sp') ->
  (sp <> SUndef -> sp' = sp)
  /\ Forall (fun info => spacing info <> SUndef -> spacing info = sp') infos.
Proof.
  induction infos as [|info infos IH]; intros acc o sp acc' o' sp' Hc.
  - injection Hc as _ _ <-. by split; [|constructor].
  - cbn [checkFrameInfos] in Hc.
    destruct (checkFrameInfo (acc, o, sp) info) as [[[acc1 o1] sp1]| |] eqn:E1;
      cbn [mbind result_bind bind] in Hc; try discriminate Hc.
    apply checkFrameInfo_agrees in E1 as (_ & Hs & _ & Hds & _ & Hi).
    destruct (IH _ _ _ _ _ _ Hc) as (Hs' & Hall).
    split.
    + intros Hd. pose proof (Hs Hd) as ->. by apply Hs'.
    + constructor; [|done]. intros Hd. rewrite (Hs' (Hds Hd)). auto.
Qed.

Lemma checkFrameInfos_orientation infos :
  forall acc o sp acc' o' sp',
  checkFrameInfos (acc, o, sp) infos = Ok (acc', o', sp') ->
  (defined o = true -> o' = o)
  /\ Forall (fun info =>
               defined (imageOrientationPatient info) = true ->
               imageOrientationPatient info = o'
               \/ arrayEquals o' (imageOrientationPatient info) = Ok true)
       infos.
Proof.
  induction infos as [|info infos IH]; intros acc o sp acc' o' sp' Hc.
  - injection Hc as _ <- _. by split; [|constructor].
  - cbn [checkFrameInfos] in Hc.
    destruct (checkFrameInfo (acc, o, sp) info) as [[[acc1 o1] sp1]| |] eqn:E1;
      cbn [mbind result_bind bind] in Hc; try discriminate Hc.
    apply checkFrameInfo_agrees in E1 as (Ho & _ & Hdo & _ & Hi & _).
    destruct (IH _ _ _ _ _ _ Hc) as (Ho' & Hall).
    split.
    + intros Hd. pose proof (Ho Hd) as ->. by apply Ho'.
    + constructor; [|done]. intros Hd. rewrite (Ho' (Hdo Hd)). auto.
Qed.

(** X6: when the check of the frame informations succeeds, an
    orientation or a spacing that was set before the loop (by the shared
    functional group) is the one kept, and every frame agrees with what is
    kept: a frame that carries an orientation carries the kept array or
    one with strictly equal entries, and a frame that carries a spacing
    carries the kept spacing. *)
Theorem checkFrameInfos_agree (infos : list frameInfo)
    (acc : list value) (o : value) (sp : spacing_ref)
    (acc' : list value) (o' : value) (sp' : spacing_ref) :
  checkFrameInfos (acc, o, sp) infos = Ok (acc', o', sp') ->
  (defined o = true -> o' = o)
  /\ (sp <> SUndef -> sp' = sp)
  /\ Forall (agreesWith o' sp') infos.
Proof.
  intros Hc.
  destruct (checkFrameInfos_orientation _ _ _ _ _ _ _ Hc) as [Ho Hos].
  destruct (checkFrameInfos_spacing _ _ _ _ _ _ _ Hc) as [Hs Hss].
  split; [done|]. split; [done|].
  apply Forall_forall. intros info Hinfo. split.
  - by apply (proj1 (Forall_forall _ _) Hos).
  - by apply (proj1 (Forall_forall _ _) Hss).
Qed.

(** Two frames with the same orientation and spacing, after a frame
    without. *)
Lemma checkFrameInfos_agree_witness :
  Forall (agreesWith Sample.axial (Spacing [Int 1; Int 1; Int 2]))
    [Sample.frameAt 10;
     Sample.frameOf 1 8 Sample.axial (Spacing [Int 1; Int 1; Int 2]);
     Sample.frameOf 1 6 Sample.axial (Spacing [Int 1; Int 1; Int 2])].
Proof.
  apply (checkFrameInfos_agree
           [Sample.frameAt 10;
            Sample.frameOf 1 8 Sample.axial (Spacing [Int 1; Int 1; Int 2]);
            Sample.frameOf 1 6 Sample.axial (Spacing [Int 1; Int 1; Int 2])]
           [] VUndef SUndef
           [pos3 (0, 0, 10); pos3 (0, 0, 8); pos3 (0, 0, 6)]).
  reflexivity.
Defined.

Lemma sharedOrientation_parsed funcGroup0 shared :
  sharedOrientation funcGroup0 = Ok shared ->
  shared = VUndef \/ exists l, shared = VArr (parsedEntry <$> l).
Proof.
  unfold sharedOrientation. intros Hs. bind_ok Hs;
    try (injection Hs as <-; by left).
  right. unfold parseFloatAll in Hs.
  match type of Hs with
  | match ?a with _ => _ end = _ => destruct a as [| | | |l|];
                                     try discriminate Hs
  end.
  injection Hs as <-. by exists l.
Qed.

(** X7: the orientation of the shared functional group is kept as
    numbers, the orientation of a frame as the element holds it; so when
    the shared group gives an orientation that is not empty, a frame whose
    own orientation is an array of strings is refused as a second
    orientation, whatever the strings are. *)
Theorem checkFrameInfo_orientation_text funcGroup0 shared acc sp info strs :
  sharedOrientation funcGroup0 = Ok shared ->
  defined shared = true -> shared <> VArr [] ->
  imageOrientationPatient info = VArr strs -> Forall isText strs ->
  checkFrameInfo (acc, shared, sp) info
  = Throw (Error "Unsupported multi orientation dicom seg.").
Proof.
  intros Hshared Hdef Hne Hinfo Htext.
  apply sharedOrientation_parsed in Hshared as [->|[l ->]]; [done|].
  unfold checkFrameInfo. rewrite Hinfo. cbn [defined negb].
  assert (arrayEquals (VArr (parsedEntry <$> l)) (VArr strs) = Ok false)
    as ->; [|done].
  unfold arrayEquals.
  cbn [get String.eqb Ascii.eqb Bool.eqb mbind result_bind bind
       strict_eq VInt number_eqb].
  destruct (Z.eqb_spec (Z.of_nat (length (parsedEntry <$> l)))
              (Z.of_nat (length strs))) as [E|E]; [|done].
  cbn [negb]. destruct l as [|x l]; [done|].
  destruct strs as [|y strs]; [done|].
  apply Forall_cons in Htext as [[s ->] _]. done.
Qed.

(** The orientation of the sample shared group, which the element holds
    as strings, against a frame that holds the same strings. *)
Lemma checkFrameInfo_orientation_text_witness :
  sharedOrientation Sample.sharedItem = Ok Sample.axial
  /\ checkFrameInfo ([], Sample.axial, SUndef)
       (Sample.frameOf 1 0 Sample.axialText SUndef)
     = Throw (Error "Unsupported multi orientation dicom seg.").
Proof.
  split; [reflexivity|].
  apply (checkFrameInfo_orientation_text Sample.sharedItem Sample.axial []
           SUndef (Sample.frameOf 1 0 Sample.axialText SUndef)
           (VStr <$> ["1"; "0"; "0"; "0"; "1"; "0"]));
    try done.
  repeat constructor; by eexists.
Defined.

(** ** More on the position-set builder *)

Lemma fillGap_nan fuel p q sliceSpacing nextZ :
  to_number sliceSpacing = NaN ->
  fillGap fuel (pos3 p) (pos3 q) sliceSpacing nextZ = Ok [].
Proof.
  intros Hs. rewrite fillGap_unfold, index_pos3_z.
  cbn [mbind result_bind bind]. rewrite Hs.
  by destruct (num_abs _).
Qed.

Lemma completePosPats_from_nan fuel sliceSpacing rest :
  to_number sliceSpacing = NaN ->
  forall p,
  completePosPats_from fuel (pos3 p) (pos3 <$> rest) sliceSpacing
  = Ok (pos3 <$> p :: rest).
Proof.
  intros Hs. induction rest as [|q rest IH]; intros p; [done|].
  rewrite fmap_cons. cbn [completePosPats_from].
  rewrite index_pos3_z. cbn [mbind result_bind bind].
  rewrite fillGap_nan by done. cbn [mbind result_bind bind].
  by rewrite IH.
Qed.

(** X8: when the slice spacing is not a number, as the third value of a
    spacing read without Spacing Between Slices is, the builder inserts no
    position: it returns the positions it was given, with any fuel. *)
Theorem completePosPats_without_slice_spacing (fuel : nat)
    (ps : list (Z * Z * Z)) (sliceSpacing : value) :
  ps <> [] -> to_number sliceSpacing = NaN ->
  completePosPats fuel (pos3 <$> ps) sliceSpacing = Ok (pos3 <$> ps).
Proof.
  intros Hne Hs. destruct ps as [|p rest]; [done|].
  by apply completePosPats_from_nan.
Qed.

(** Two positions four apart under a spacing of two values. *)
Lemma completePosPats_without_slice_spacing_witness :
  completePosPats 0 (pos3 <$> [(0, 0, 10); (0, 0, 6)])
    (spacing_get [Int 1; Int 1] 2)
  = Ok (pos3 <$> [(0, 0, 10); (0, 0, 6)]).
Proof.
  by apply (completePosPats_without_slice_spacing 0
              [(0, 0, 10); (0, 0, 6)] (spacing_get [Int 1; Int 1] 2)).
Defined.





(** ** From the frames to their slices *)




(** ** More on the merge of the frames *)

(** The offsets a frame writes stay inside the buffer: a frame whose
    position is not found writes at negative offsets, which an array
    ignores. *)
Lemma mergePixel_length (rgb : bool) pv pix frameOffset s k l buffer
    buffer' :
  0 <= l < s -> -1 <= k ->
  (if rgb then 3 else 1) * (s * (k + 1)) <= Z.of_nat (length buffer) ->
  mergePixel rgb pv pix frameOffset (Int (s * k)) l buffer = Ok buffer' ->
  length buffer' = length buffer.
Proof.
  intros Hl Hk Hlen. unfold mergePixel.
  destruct (negb _); [|by intros [= <-]].
  cbn [num_add num_mul].
  assert (Hoff : s * k + l < s * (k + 1)) by nia.
  destruct rgb.
  - destruct (get pv "r") as [r| |]; cbn [mbind result_bind bind]; try done.
    destruct (get pv "g") as [g| |]; cbn [mbind result_bind bind]; try done.
    destruct (get pv "b") as [b| |]; cbn [mbind result_bind bind]; try done.
    intros <-%Ok_inj.
    assert (H1 : length (array_set buffer (Int (3 * (s * k + l))) r)
                 = length buffer) by (apply array_set_length; lia).
    rewrite array_set_length; rewrite array_set_length; rewrite ?H1; lia.
  - intros <-%Ok_inj. rewrite array_set_length; [done|]. lia.
Qed.

Lemma mergePixels_from_length (rgb : bool) pv pix frameOffset s k n :
  forall l buffer buffer',
  0 <= l -> l + Z.of_nat n <= s -> -1 <= k ->
  (if rgb then 3 else 1) * (s * (k + 1)) <= Z.of_nat (length buffer) ->
  mergePixels_from rgb pv pix frameOffset (Int (s * k)) l n buffer
  = Ok buffer' ->
  length buffer' = length buffer.
Proof.
  induction n as [|n IH]; intros l buffer buffer' Hl Hn Hk Hlen;
    [by intros [= <-]|].
  cbn [mergePixels_from]. intros Hm. bind_ok Hm.
  match goal with
  | E : mergePixel _ _ _ _ _ _ _ = Ok ?b |- _ =>
      apply mergePixel_length in E; [|lia..];
      apply IH in Hm; [|lia..]; congruence
  end.
Qed.

Lemma mergeFrames_from_length segments posPats s (rgb : bool) pix infos :
  forall f buffer buffer',
  (if rgb then 3 else 1) * (s * Z.of_nat (length posPats))
  <= Z.of_nat (length buffer) ->
  mergeFrames_from segments posPats (Int s) rgb pix f infos buffer
  = Ok buffer' ->
  length buffer' = length buffer.
Proof.
  induction infos as [|info infos IH]; intros f buffer buffer' Hlen;
    [by intros [= <-]|].
  cbn [mergeFrames_from]. intros Hm. bind_ok Hm.
  match goal with
  | E : mergeFrame _ _ _ _ _ _ _ _ = Ok ?b |- _ =>
      assert (Hb : length b = length buffer); [|
        apply IH in Hm; [congruence|lia]]
  end.
  clear Hm IH. unfold mergeFrame in E.
  destruct (findSegment _ _); [|discriminate E].
  cbn [num_mul trip_count to_number] in E.
  pose proof (findIndexPosPat_from_range posPats (imagePosPat info) 0) as Hr.
  fold (findIndexPosPat posPats (imagePosPat info)) in Hr.
  destruct (Z.le_gt_cases s 0) as [Hs|Hs].
  { replace (Z.to_nat s) with 0%nat in E by lia. by injection E as <-. }
  eapply mergePixels_from_length in E; [done|lia|lia|lia|].
  assert (findIndexPosPat posPats (imagePosPat info) + 1
          <= Z.of_nat (length posPats)) by lia.
  destruct rgb; nia.
Qed.

(** A merge that returns has allocated its buffer, of zeros, and merged
    the frames into it. *)
Lemma mergeFrames_inv segments posPats (s : Z) (storeAsRGB : bool)
    pixelBuffer infos buffer :
  mergeFrames segments posPats (Int s) storeAsRGB pixelBuffer infos
  = Ok buffer ->
  let size := (if storeAsRGB then 3 else 1) * s
              * Z.of_nat (length posPats) in
  0 <= size < 2 ^ 32
  /\ mergeFrames_from segments posPats (Int s) storeAsRGB pixelBuffer 0 infos
       (replicate (Z.to_nat size) (VInt 0)) = Ok buffer.
Proof.
  unfold mergeFrames. intros Hm. bind_ok Hm.
  match goal with
  | E : new_filled_array _ = Ok _ |- _ =>
      cbn [num_mul] in E; unfold new_filled_array in E;
      destruct (andb _ _) eqn:Eb in E; [|discriminate E];
      injection E as <-
  end.
  apply andb_true_iff in Eb as [Hlo%Z.leb_le Hhi%Z.ltb_lt]. by split.
Qed.



Lemma mergeFrames_from_app segments posPats sliceSize rgb pix infos1 :
  forall infos2 (f : nat) buffer,
  mergeFrames_from segments posPats sliceSize rgb pix (Z.of_nat f)
    (infos1 ++ infos2) buffer
  = (b ← mergeFrames_from segments posPats sliceSize rgb pix (Z.of_nat f)
           infos1 buffer;
     mergeFrames_from segments posPats sliceSize rgb pix
       (Z.of_nat (f + length infos1)) infos2 b).
Proof.
  induction infos1 as [|info infos1 IH]; intros infos2 f buffer.
  - simpl. by rewrite Nat.add_0_r.
  - cbn [app mergeFrames_from length].
    destruct (mergeFrame _ _ _ _ _ _ _ _) as [b| |];
      cbn [mbind result_bind bind]; [|done..].
    replace (Z.of_nat f + 1) with (Z.of_nat (S f)) by lia.
    rewrite IH. do 3 f_equal. lia.
Qed.

(** X12: when the frames before it resolve, a frame whose referenced
    segment number is the number of no segment makes the merge throw a
    [TypeError] (the display value is read off the undefined result of
    the search), whatever frames follow. *)
Theorem mergeFrames_unknown_segment segments posPats pixelBuffer
    (storeAsRGB : bool) (n : nat) infos1 info infos2 :
  Z.of_nat (channels storeAsRGB * n * length posPats) < 2 ^ 32 ->
  Forall (resolves segments posPats storeAsRGB) infos1 ->
  findSegment segments (refSegmentNumber info) = None ->
  mergeFrames segments posPats (Int (Z.of_nat n)) storeAsRGB pixelBuffer
    (infos1 ++ info :: infos2)
  = Throw TypeError.
Proof.
  intros Hsize Hres Hnone. unfold mergeFrames. cbn [num_mul].
  assert (Hn : (if storeAsRGB then 3 else 1) * Z.of_nat n
               * Z.of_nat (length posPats)
               = Z.of_nat (channels storeAsRGB * n * length posPats)).
  { unfold channels. destruct storeAsRGB; lia. }
  rewrite Hn. unfold new_filled_array.
  destruct (Z.leb_spec 0 (Z.of_nat (channels storeAsRGB * n * length posPats)));
    [|lia].
  destruct (Z.ltb_spec (Z.of_nat (channels storeAsRGB * n * length posPats))
              (2 ^ 32)); [|lia].
  cbn [andb mbind result_bind bind]. rewrite Nat2Z.id.
  change 0 with (Z.of_nat 0) at 1. rewrite mergeFrames_from_app.
  destruct (mergeFrames_from_lookup segments posPats pixelBuffer storeAsRGB n
              infos1 0 (replicate (channels storeAsRGB * n * length posPats)
                                  (VInt 0)))
    as (out & -> & _); [by rewrite length_replicate|done|].
  cbn [mbind result_bind bind mergeFrames_from]. unfold mergeFrame.
  by rewrite Hnone.
Qed.

(** A frame of segment 1, then a frame of a segment 2 that is not
    declared. *)
Lemma mergeFrames_unknown_segment_witness :
  mergeFrames [Sample.scalarSegment] [pos3 (0, 0, 0)] (Int (Z.of_nat 4))
    false (VInt <$> [1; 0; 0; 1; 0; 0; 0; 0])
    ([Sample.frameAt 0] ++ Sample.frameOf 2 0 VUndef SUndef :: [])
  = Throw TypeError.
Proof.
  apply (mergeFrames_unknown_segment [Sample.scalarSegment] [pos3 (0, 0, 0)]
           (VInt <$> [1; 0; 0; 1; 0; 0; 0; 0]) false 4 [Sample.frameAt 0]);
    [done| |done].
  constructor; [|constructor]. split; [done|]. by eexists.
Defined.

(** ** More on the factory *)

Lemma appendOrigins_numbers posPats :
  forall m r,
  appendOrigins posPats m = Ok r ->
  r.*2 = (fun i : nat => m + Z.of_nat i) <$> seq 0 (length posPats)
  /\ Forall2 (fun pos pt => point3DFromArray pos = Ok pt) posPats r.*1.
Proof.
  induction posPats as [|pos posPats IH]; intros m r Ha.
  - injection Ha as <-. by split; [|constructor].
  - cbn [appendOrigins] in Ha. bind_ok Ha. injection Ha as <-.
    match goal with
    | E : appendOrigins posPats _ = Ok ?r' |- _ =>
        destruct (IH _ _ E) as [IH2 IH1]; split;
        [cbn [fmap list_fmap length seq snd]; rewrite Z.add_0_r; f_equal;
         fold (@fmap list _ _ _ snd r'); rewrite IH2|by constructor]
    end.
    rewrite <- fmap_S_seq, <- list_fmap_compose. apply list_fmap_ext.
    intros _ i _. simpl. lia.
Qed.

Lemma buildImage_shape dicomElements info infos orientation sp posPats
    buffer img :
  buildImage dicomElements info infos orientation sp posPats buffer = Ok img ->
  image_buffer img = buffer
  /\ image_uids img = Z.of_nat <$> seq 0 (length posPats)
  /\ posPats <> []
  /\ Forall2 (fun pos pt => point3DFromArray pos = Ok pt) posPats
       (origin (image_geometry img) :: (appended (image_geometry img)).*1)
  /\ photometricInterpretation img
     = (if storeAsRGB info then Some "RGB" else None)
  /\ custom_frameInfos (image_meta img) = infos.
Proof.
  unfold buildImage. intros Hb.
  destruct posPats as [|pos posPats]; [discriminate Hb|].
  change (nth_value (pos :: posPats) 0) with pos in Hb.
  cbn [tail] in Hb. bind_ok Hb. injection Hb as <-. cbn.
  match goal with
  | E : appendOrigins posPats _ = Ok ?r |- _ =>
      destruct (appendOrigins_numbers _ _ _ E) as [H2 H1];
      split; [done|]; split;
      [f_equal; fold (@fmap list _ _ _ snd r); rewrite H2|]
  end.
  - rewrite <- fmap_S_seq, <- list_fmap_compose. apply list_fmap_ext.
    intros _ i _. simpl. lia.
  - split; [done|]. split; [|done]. by constructor.
Qed.

Lemma assemble_shape fuel dicomElements pixelBuffer info infos img (s : Z) :
  sliceSize info = Int s ->
  assemble fuel dicomElements pixelBuffer info infos = Ok img ->
  exists n : nat,
    (0 < n)%nat
    /\ image_uids img = Z.of_nat <$> seq 0 n
    /\ length (appended (image_geometry img)) = (n - 1)%nat
    /\ Z.of_nat (length (image_buffer img))
       = samplesPerPixel img * s * Z.of_nat n
    /\ custom_frameInfos (image_meta img) = infos.
Proof.
  unfold assemble. intros Hs Ha. bind_ok Ha.
  all: match goal with
       | Hb : buildImage _ _ _ _ _ ?posPats ?buffer = Ok _,
         Hm : mergeFrames _ _ _ _ _ _ = Ok _ |- _ =>
           apply buildImage_shape in Hb
             as (Hbuf & Huids & Hne & Hpts & Hphoto & Hinfos);
           rewrite Hs in Hm; apply mergeFrames_inv in Hm as [Hsize Hm];
           apply mergeFrames_from_length in Hm as Hlenb;
           [|rewrite length_replicate; lia];
           rewrite length_replicate in Hlenb;
           exists (length posPats);
           split; [destruct posPats; [done|simpl; lia]|]
       end.
  all: split; [done|].
  all: split; [apply Forall2_length in Hpts; simpl in Hpts;
               rewrite length_fmap in Hpts; lia|].
  all: split; [|done].
  all: unfold samplesPerPixel; rewrite Hphoto, Hbuf, Hlenb;
       destruct (storeAsRGB info); lia.
Qed.

Lemma assemble_no_frames fuel dicomElements pixelBuffer info img :
  assemble fuel dicomElements pixelBuffer info [] <> Ok img.
Proof.
  unfold assemble. cbn [checkFrameInfos mbind result_bind bind].
  change (array_sort comparePosPat []) with (Ok (@nil value)).
  cbn [mbind result_bind bind completePosPats].
  destruct (sharedSpacingValue info); try done;
    destruct (negb _); try done.
  destruct (mergeFrames _ _ _ _ _ _); done.
Qed.

Section FactoryShape.
Context `{Env}.

Lemma readBeforeFrames_header dicomElements pixelBuffer info :
  readBeforeFrames dicomElements pixelBuffer = Ok info ->
  sliceSize info
  = num_mul (to_number (getFromKey dicomElements "x00280011" false))
            (to_number (getFromKey dicomElements "x00280010" false))
  /\ framesMatchBuffer (frames info) (Z.of_nat (length pixelBuffer))
       (sliceSize info) = true.
Proof.
  unfold readBeforeFrames. intros Hr.
  destruct (readHeader dicomElements pixelBuffer) as [[s f]| |] eqn:Eh;
    [|discriminate Hr..].
  cbn [mbind result_bind bind] in Hr. bind_ok Hr.
  injection Hr as <-. simpl.
  unfold readHeader in Eh. bind_ok Eh. injection Eh as <- <-.
  split; [done|].
  match goal with
  | E : negb (framesMatchBuffer _ _ _) = false |- _ =>
      by apply negb_false_iff in E
  end.
Qed.

Lemma readFrameInfos_from_count n :
  forall sq j infos,
  (readFrameInfos_from sq j n).2 = Ok infos -> length infos = n.
Proof.
  induction n as [|n IH]; intros sq j infos; [by intros [= <-]|].
  cbn [readFrameInfos_from]. destruct (index sq j) as [item| |]; try done.
  destruct (getSegmentFrameInfo item) as [item' [info| |]]; try done.
  destruct (readFrameInfos_from _ (j + 1) n) as [sq'' rest] eqn:E.
  cbn [snd]. intros Hr. bind_ok Hr. injection Hr as <-. simpl. f_equal.
  eapply (IH _ (j + 1)). by rewrite E.
Qed.

(** X13: an image the factory returns has this shape.  Rows times
    columns is a positive integer [s]; the source buffer holds [f] frames
    of [s] pixels, [f] being the declared number of frames, and the meta
    data hold one frame information for each; the image has [n] slices,
    one at least, numbered 0 to [n - 1], the first at the origin of the
    geometry and each other at an appended origin; and the output buffer
    holds [n] slices of [s] voxels, of three values for an RGB image and
    of one otherwise. *)
Theorem create_image_shape fuel dicomElements pixelBuffer st img :
  create fuel dicomElements pixelBuffer = (st, Ok img) ->
  exists (s f : Z) (n : nat),
    num_mul (to_number (getFromKey dicomElements "x00280011" false))
            (to_number (getFromKey dicomElements "x00280010" false)) = Int s
    /\ readFrames dicomElements = Int f
    /\ 0 < s /\ (0 < n)%nat
    /\ Z.of_nat (length pixelBuffer) = f * s
    /\ Z.of_nat (length (custom_frameInfos (image_meta img))) = f
    /\ image_uids img = Z.of_nat <$> seq 0 n
    /\ length (appended (image_geometry img)) = (n - 1)%nat
    /\ Z.of_nat (length (image_buffer img))
       = samplesPerPixel img * s * Z.of_nat n.
Proof.
  unfold create. intros Hc.
  destruct (_ ≫= _) as [[info sq]| |] eqn:Ehead in Hc; [|discriminate Hc..].
  destruct (readFrameInfos sq) as [sq' finfos] eqn:Erf.
  injection Hc as _ Hc.
  destruct finfos as [infos| |]; try discriminate Hc.
  cbn [mbind result_bind bind] in Hc.
  bind_ok Ehead. injection Ehead as -> ->.
  match goal with
  | Hb : readBeforeFrames _ _ = Ok _ |- _ =>
      pose proof (readBeforeFrames_frames _ _ _ Hb) as Hfr;
      apply readBeforeFrames_header in Hb as [Hsz Hmatch]
  end.
  unfold framesMatchBuffer in Hmatch.
  destruct (frames info) as [f|] eqn:Ef; [|discriminate Hmatch].
  destruct (sliceSize info) as [s|] eqn:Es; [|discriminate Hmatch].
  apply andb_true_iff in Hmatch as [Hs0%negb_true_iff%Z.eqb_neq Hfs%Z.eqb_eq].
  destruct (assemble_shape _ _ _ _ _ _ s Es Hc)
    as (n & Hn & Huids & Happ & Hlen & Hinfos).
  exists s, f, n.
  assert (Hspp : 0 < samplesPerPixel img)
    by (unfold samplesPerPixel; by destruct (photometricInterpretation _)).
  assert (Hpos : 0 < s) by nia.
  assert (Hcount : Z.of_nat (length infos) = f).
  { match goal with
    | Hs : readPerFrameSequence _ _ = Ok _ |- _ =>
        unfold readPerFrameSequence in Hs; bind_ok Hs; injection Hs as <-
    end.
    unfold readFrameInfos in Erf.
    match goal with
    | Hl : get _ "length" = Ok ?len, Hq : negb (strict_eq _ ?len) = false
      |- _ =>
        rewrite Hl in Erf; apply negb_false_iff, strict_eq_true in Hq;
        subst len
    end.
    cbn [trip_count to_number] in Erf.
    pose proof (readFrameInfos_from_count (Z.to_nat f)
                  (getFromKey dicomElements "x52009230" true) 0 infos)
      as Hcnt.
    rewrite Erf in Hcnt. rewrite (Hcnt eq_refl). nia. }
  split; [by rewrite <- Hsz|]. split; [by rewrite <- Hfr|].
  split; [done|]. split; [done|]. split; [lia|].
  split; [by rewrite Hinfos|]. done.
Qed.

(** X14: the factory returns no image for a tree whose per-frame
    functional groups sequence is empty: with no position to take the
    origin from, what is not refused before fails there. *)
Theorem create_without_frames fuel dicomElements pixelBuffer :
  getFromKey dicomElements "x52009230" true = VArr [] ->
  forall st img, create fuel dicomElements pixelBuffer <> (st, Ok img).
Proof.
  intros Hseq st img. unfold create.
  destruct (_ ≫= _) as [[info sq]| |] eqn:Ehead; [|done..].
  bind_ok Ehead. injection Ehead as -> ->.
  match goal with
  | Hs : readPerFrameSequence _ _ = Ok _ |- _ =>
      apply readPerFrameSequence_value in Hs; rewrite Hseq in Hs; subst sq
  end.
  change (readFrameInfos (VArr [])) with (VArr [], Ok (@nil frameInfo)).
  cbn [mbind result_bind bind]. intros [= _ Ha].
  by apply assemble_no_frames in Ha.
Qed.

(** X15: once the validator has passed, a number of columns that is
    missing, empty or zero makes the factory throw the error of the
    missing columns, and the same of the rows after the columns; once the
    header and the dimension organization are read, a missing segment
    sequence makes it throw the error of the missing segmentation
    sequence; and once everything before the frames is read, a missing
    per-frame sequence makes it throw the error of the missing per frame
    functional sequence.  In each case the inputs are left as they
    were. *)
Theorem create_required_tags fuel dicomElements pixelBuffer :
  let columns := getFromKey dicomElements "x00280011" false in
  let rows := getFromKey dicomElements "x00280010" false in
  let unchanged := {| elements := dicomElements; pixels := pixelBuffer |} in
  checkDicomSeg dicomElements = Ok tt ->
  (truthy columns = false ->
   create fuel dicomElements pixelBuffer
   = (unchanged,
      Throw (Error "Missing or empty DICOM image number of columns")))
  /\ (truthy columns = true -> truthy rows = false ->
      create fuel dicomElements pixelBuffer
      = (unchanged,
         Throw (Error "Missing or empty DICOM image number of rows")))
  /\ (forall header dimension,
        readHeader dicomElements pixelBuffer = Ok header ->
        getDimensionOrganization dicomElements = Ok dimension ->
        truthy (getFromKey dicomElements "x00620002" true) = false ->
        create fuel dicomElements pixelBuffer
        = (unchanged, Throw (Error "Missing or empty segmentation sequence")))
  /\ (forall info,
        readBeforeFrames dicomElements pixelBuffer = Ok info ->
        truthy (getFromKey dicomElements "x52009230" true) = false ->
        create fuel dicomElements pixelBuffer
        = (unchanged,
           Throw (Error "Missing or empty per frame functional sequence"))).
Proof.
  intros columns rows unchanged Hcheck.
  split; [|split; [|split]].
  - intros Hc. unfold create, readBeforeFrames, readHeader.
    rewrite Hcheck. cbn [mbind result_bind bind]. fold columns.
    by rewrite Hc.
  - intros Hc Hr. unfold create, readBeforeFrames, readHeader.
    rewrite Hcheck. cbn [mbind result_bind bind]. fold columns rows.
    by rewrite Hc, Hr.
  - intros [sz fr] dimension Hh Hd Hs. unfold create, readBeforeFrames.
    rewrite Hh. cbn [mbind result_bind bind]. rewrite Hd.
    cbn [mbind result_bind bind]. unfold readSegments. by rewrite Hs.
  - intros info Hb Hs. unfold create. rewrite Hb.
    cbn [mbind result_bind bind]. unfold readPerFrameSequence.
    by rewrite Hs.
Qed.

End FactoryShape.

(** The sample decode: two frames of 2 x 2 pixels, three slices. *)
Lemma create_image_shape_witness :
  exists st img,
    @create Sample.env 1 Sample.dicomElements Sample.pixelBuffer
    = (st, Ok img)
    /\ image_uids img = [0; 1; 2]
    /\ exists (s f : Z) (n : nat),
         0 < s /\ (0 < n)%nat
         /\ Z.of_nat (length Sample.pixelBuffer) = f * s
         /\ image_uids img = Z.of_nat <$> seq 0 n
         /\ Z.of_nat (length (image_buffer img))
            = samplesPerPixel img * s * Z.of_nat n.
Proof.
  destruct (@create Sample.env 1 Sample.dicomElements Sample.pixelBuffer)
    as [st [img| |]] eqn:Ec;
    try (vm_compute in Ec; discriminate Ec).
  exists st, img. split; [reflexivity|].
  split; [by vm_compute in Ec; injection Ec as _ <-|].
  destruct (@create_image_shape Sample.env 1%nat Sample.dicomElements
              Sample.pixelBuffer st img Ec)
    as (s & f & n & _ & _ & Hs & Hn & Hp & _ & Hu & _ & Hb).
  by exists s, f, n.
Defined.

(** A tree that declares no frame and holds none. *)
Lemma create_without_frames_witness :
  ~ exists st img,
      @create Sample.env 1 Sample.noFrames [] = (st, Ok img).
Proof.
  intros (st & img & Hc).
  exact (@create_without_frames Sample.env 1%nat Sample.noFrames []
           eq_refl st img Hc).
Defined.

(** A tree that passes the validator and declares zero columns. *)
Lemma create_required_tags_witness :
  @create Sample.env 1 Sample.noColumns []
  = ({| elements := Sample.noColumns; pixels := [] |},
     Throw (Error "Missing or empty DICOM image number of columns")).
Proof.
  apply (@create_required_tags Sample.env 1%nat Sample.noColumns []);
    reflexivity.
Defined.

(** ** More on the segments *)

(** X16: two segments that [isEqualSegment] accepts are similar for
    [isSimilarSegment], and agree on what is compared: number, label and
    algorithm type are the same, the display values are equal as colours
    or the same scalar, and the algorithm name of the first, when it has
    one, is that of the second. *)
Theorem isEqualSegment_sound (seg1 seg2 : segment_ref) :
  isEqualSegment seg1 seg2 = Ok true ->
  isSimilarSegment seg1 seg2 = Ok true
  /\ exists s1 s2,
       seg1 = Seg s1 /\ seg2 = Seg s2
       /\ number s1 = number s2 /\ label s1 = label s2
       /\ algorithmType s1 = algorithmType s2
       /\ sameDisplay (displayValue s1) (displayValue s2)
       /\ (algorithmName s1 = VUndef
           \/ algorithmName s1 = algorithmName s2).
Proof.
  destruct seg1 as [| |s1], seg2 as [| |s2]; try done.
  unfold isEqualSegment, isSimilarSegment. intros He.
  destruct (get (displayValue s1) "r") as [r1| |] eqn:E1;
    cbn [mbind result_bind bind] in *; try discriminate He.
  set (basics := strict_eq (number s1) (number s2)
                 && strict_eq (label s1) (label s2)
                 && strict_eq (algorithmType s1) (algorithmType s2)) in *.
  assert (Hfinal : forall isEqual : bool,
            (if defined (algorithmName s1)
             then if negb (defined (algorithmName s2)) then Ok false
                  else Ok (isEqual && strict_eq (algorithmName s1)
                                                (algorithmName s2))
             else Ok isEqual) = Ok true ->
            isEqual = true
            /\ (algorithmName s1 = VUndef
                \/ algorithmName s1 = algorithmName s2)).
  { intros isEqual Hi.
    destruct (defined (algorithmName s1)) eqn:Ed.
    - destruct (negb _); [discriminate Hi|]. injection Hi as Hi.
      apply andb_true_iff in Hi as [-> Hn%strict_eq_true]. auto.
    - injection Hi as ->. split; [done|]. left.
      by destruct (algorithmName s1). }
  assert (Hbasics : basics = true ->
            number s1 = number s2 /\ label s1 = label s2
            /\ algorithmType s1 = algorithmType s2
            /\ strict_eq (number s1) (number s2) = true).
  { unfold basics. intros [[Hn Hl]%andb_true_iff Ht]%andb_true_iff.
    repeat split; try by apply strict_eq_true. done. }
  destruct (defined r1) eqn:Er.
  - destruct (get (displayValue s2) "r") as [r2| |] eqn:E2;
      cbn [mbind result_bind bind] in *; try discriminate He.
    destruct (negb (defined r2)); cbn [mbind result_bind bind] in He.
    + apply Hfinal in He as [[=] _].
    + apply Hfinal in He as [[Hb Hrgb]%andb_true_iff Hname].
      destruct (Hbasics Hb) as (Hn & Hl & Ht & Hnum).
      rewrite Hnum. split; [done|].
      exists s1, s2. repeat split; try done. by left.
  - cbn [mbind result_bind bind] in He.
    apply Hfinal in He as [[Hb Hdv]%andb_true_iff Hname].
    destruct (Hbasics Hb) as (Hn & Hl & Ht & Hnum).
    rewrite Hnum. split; [done|].
    exists s1, s2. repeat split; try done. right. by apply strict_eq_true.
Qed.

Lemma isEqualSegment_sound_witness :
  isSimilarSegment (Seg Sample.rgbSegment) (Seg Sample.rgbSegment) = Ok true.
Proof.
  apply (isEqualSegment_sound (Seg Sample.rgbSegment) (Seg Sample.rgbSegment)).
  reflexivity.
Defined.

(** X17: [isEqualSegment] is not symmetric.  It looks at the algorithm
    name of its second argument only when the first has one: a segment
    without an algorithm name is equal to one that differs from it by
    having a name, and the comparison the other way round is false. *)
Theorem isEqualSegment_algorithmName (s1 s2 : segment) :
  algorithmName s1 = VUndef -> defined (algorithmName s2) = true ->
  isEqualSegment (Seg s1) (Seg s2) = Ok true ->
  isEqualSegment (Seg s2) (Seg s1) = Ok false.
Proof.
  intros Hn1 Hn2. unfold isEqualSegment. rewrite Hn1, Hn2. cbn [defined negb].
  intros He.
  destruct (get (displayValue s1) "r") as [r1| |] eqn:E1;
    cbn [mbind result_bind bind] in He; try discriminate He.
  assert (exists r2, get (displayValue s2) "r" = Ok r2) as [r2 E2].
  { destruct (defined r1).
    - destruct (get (displayValue s2) "r") as [r2| |] eqn:E2;
        cbn [mbind result_bind bind] in He; try discriminate He. eauto.
    - cbn [mbind result_bind bind] in He. injection He as He.
      apply andb_true_iff in He as [_ He%strict_eq_true].
      rewrite <- He. eauto. }
  rewrite E2. cbn [mbind result_bind bind].
  by destruct (defined r2), (negb (defined r1)).
Qed.

Lemma isEqualSegment_algorithmName_witness :
  isEqualSegment (Seg Sample.scalarSegment) (Seg Sample.namedSegment)
  = Ok true
  /\ isEqualSegment (Seg Sample.namedSegment) (Seg Sample.scalarSegment)
     = Ok false.
Proof.
  split; [reflexivity|].
  by apply (isEqualSegment_algorithmName Sample.scalarSegment
              Sample.namedSegment).
Defined.

Section SegmentsRead.
Context `{Env}.

Lemma getSegment_without_display fs seg :
  lookup_field "x0062000C" fs = VUndef ->
  lookup_field "x0062000D" fs = VUndef ->
  getSegment (VObj fs) = Ok seg -> displayValue seg = VUndef.
Proof.
  intros Hgray Hlab. unfold getSegment. intros Hg.
  repeat match type of Hg with
    | (?m ≫= _) = Ok _ =>
        let E := fresh "E" in
        destruct m eqn:E; cbn [mbind result_bind bind] in Hg;
        [|discriminate Hg..]
    end.
  injection Hg as <-. cbn [displayValue get] in *.
  repeat match goal with
    | E : Ok _ = Ok _ |- _ => injection E as E
    end.
  subst. rewrite Hgray in *. cbn [defined mbind result_bind bind] in *.
  rewrite Hlab in *. cbn [defined] in *. congruence.
Qed.

(** X18: a segment item that holds neither the grayscale nor the CIELab
    display value yields, when [getSegment] returns, a segment without a
    display value; the colour test of [create] then throws a [TypeError]
    on it, and so do [isEqualSegment] and [isSimilarSegment] when it is
    their first argument and the second is a segment (against an undefined
    or null second argument they return false before they look). *)
Theorem segment_without_display_throws fs (seg : segment)
    (other : segment_ref) :
  lookup_field "x0062000C" fs = VUndef ->
  lookup_field "x0062000D" fs = VUndef ->
  getSegment (VObj fs) = Ok seg ->
  readSegment (VObj fs) = Throw TypeError
  /\ (forall s2, other = Seg s2 ->
        isEqualSegment (Seg seg) other = Throw TypeError
        /\ isSimilarSegment (Seg seg) other = Throw TypeError)
  /\ (other = SegUndef \/ other = SegNull ->
        isEqualSegment (Seg seg) other = Ok false
        /\ isSimilarSegment (Seg seg) other = Ok false).
Proof.
  intros Hgray Hlab Hg.
  pose proof (getSegment_without_display _ _ Hgray Hlab Hg) as Hd.
  split; [|split].
  - unfold readSegment. rewrite Hg. cbn [mbind result_bind bind].
    by rewrite Hd.
  - intros s2 ->. unfold isEqualSegment, isSimilarSegment. by rewrite Hd.
  - by intros [-> | ->].
Qed.

Lemma readSegment_displayable item r :
  readSegment item = Ok r -> displayable item.
Proof.
  unfold readSegment. intros Hr.
  destruct (getSegment item) as [seg| |] eqn:Es;
    cbn [mbind result_bind bind] in Hr; try discriminate Hr.
  destruct (isRgbShaped (displayValue seg)) as [b| |] eqn:Eb;
    cbn [mbind result_bind bind] in Hr; try discriminate Hr.
  destruct item as [| | | | |fs]; try (simpl in Es; discriminate Es).
  exists fs. split; [done|].
  destruct (defined (lookup_field "x0062000C" fs)) eqn:Eg.
  - right. destruct (defined (lookup_field "x006200C" fs)) eqn:Eshort;
      [done|].
    exfalso. eapply getSegment_grayscale_fails; [exact Eg| |exact Es].
    by destruct (lookup_field "x006200C" fs).
  - left. split; [by destruct (lookup_field "x0062000C" fs)|].
    destruct (defined (lookup_field "x0062000D" fs)) eqn:El; [done|].
    assert (displayValue seg = VUndef) as Hd.
    { eapply getSegment_without_display; [| |exact Es].
      - by destruct (lookup_field "x0062000C" fs).
      - by destruct (lookup_field "x0062000D" fs). }
    rewrite Hd in Eb. discriminate Eb.
Qed.

(** X19: when the segments of a tree are read, there is one segment for
    each item of the segment sequence, and every item is an object that
    holds a CIELab display value and no grayscale one, or holds the
    property [x006200C] that the grayscale branch reads: a segment
    sequence with a grayscale segment as the standard tags it, or with a
    segment without display value, is not read. *)
Theorem readSegments_displayable dicomElements items segments storeAsRGB :
  getFromKey dicomElements "x00620002" true = VArr items ->
  readSegments dicomElements = Ok (segments, storeAsRGB) ->
  length segments = length items /\ Forall displayable items.
Proof.
  intros Hseq. unfold readSegments. rewrite Hseq.
  cbn [truthy negb]. intros Hr.
  destruct (for_each readSegment (VArr items)) as [l| |] eqn:Ef;
    cbn [mbind result_bind bind] in Hr; try discriminate Hr.
  injection Hr as <- _. apply for_each_array in Ef. split.
  - rewrite length_fmap. symmetry. by eapply Forall2_length.
  - apply Forall_forall. intros item Hitem.
    apply list_elem_of_lookup in Hitem as [i Hi].
    destruct (Forall2_lookup_l _ _ _ _ _ Ef Hi) as (r & _ & Hr).
    by eapply readSegment_displayable.
Qed.

End SegmentsRead.

(** An item with number, label and algorithm type only. *)
Lemma segment_without_display_throws_witness :
  @readSegment Sample.env (VObj Sample.bareFields) = Throw TypeError.
Proof.
  destruct (@getSegment Sample.env (VObj Sample.bareFields))
    as [seg| |] eqn:Eg; try (vm_compute in Eg; discriminate Eg).
  exact (proj1 (@segment_without_display_throws Sample.env Sample.bareFields
                  seg SegNull eq_refl eq_refl Eg)).
Defined.

(** The segment sequence of the sample tree: one CIELab segment. *)
Lemma readSegments_displayable_witness :
  Forall displayable [Sample.segmentItem 1 (Sample.labDisplay 10 20 30)].
Proof.
  destruct (@readSegments Sample.env Sample.dicomElements)
    as [[segments rgb]| |] eqn:Er;
    try (vm_compute in Er; discriminate Er).
  exact (proj2 (@readSegments_displayable Sample.env Sample.dicomElements
                  [Sample.segmentItem 1 (Sample.labDisplay 10 20 30)]
                  segments rgb eq_refl Er)).
Defined.

(** ** The dimension reader *)

Section Dimension.
Context `{Env}.

Lemma getDimensionIndex_organization org0 item ix :
  getDimensionIndex org0 item = Ok ix -> organization ix = org0.
Proof.
  unfold getDimensionIndex. intros Hg. bind_ok Hg.
  all: injection Hg as <-; cbn [organization].
  all: match goal with
       | E : negb (strict_eq _ _) = false |- _ =>
           by apply negb_false_iff, strict_eq_true in E
       end.
Qed.

(** X20: what [getDimensionOrganization] returns holds exactly one
    organization, and either no index or exactly two, both of that
    organization, the second pointing to the Image Position (Patient)
    tag. *)
Theorem getDimensionOrganization_shape rootElement d :
  getDimensionOrganization rootElement = Ok d ->
  exists org,
    organizations d = [org]
    /\ (indices d = []
        \/ exists ix0 ix1,
             indices d = [ix0; ix1]
             /\ organization ix0 = org /\ organization ix1 = org
             /\ pointer ix1 = VStr "(0020,0032)").
Proof.
  unfold getDimensionOrganization. intros Hg. bind_ok Hg.
  - injection Hg as <-. eexists. split; [done|]. right.
    match goal with
    | E : for_each _ _ = Ok ?ixs |- _ =>
        unfold for_each in E; bind_ok E
    end.
    repeat match goal with
    | E : negb (strict_eq _ _) = false |- _ =>
        apply negb_false_iff in E
    end.
    match goal with
    | E1 : Ok ?len1 = Ok ?len2, Es : strict_eq ?len2 (VInt 2) = true |- _ =>
        injection E1 as ->; apply strict_eq_true in Es; subst len2
    end.
    match goal with
    | E : for_each_from _ _ _ _ = Ok ?ixs |- _ =>
        apply for_each_from_count in E as [Hlen Hall]
    end.
    change (trip_count (VInt 2)) with 2%nat in Hlen.
    match goal with
    | E : ?ixs !! 1%nat = Some ?d1 |- _ =>
        destruct ixs as [|ix0 [|ix1 [|? ?]]]; try discriminate Hlen;
        injection E as ->
    end.
    apply Forall_cons in Hall as [(x1 & H1) Hall].
    apply Forall_cons in Hall as [(x2 & H2) _].
    apply getDimensionIndex_organization in H1, H2.
    match goal with
    | E : strict_eq (pointer ?d1) _ = true |- _ =>
        apply strict_eq_true in E; by exists ix0, d1
    end.
  - injection Hg as <-. eexists. split; [done|]. by left.
Qed.

(** X21: [getDimensionOrganization] refuses, with the error of the
    organization sequence length, a tree without Dimension Organization
    Sequence and one whose sequence does not hold exactly one item; with
    one item whose UID can be read, it returns that organization, cleaned,
    and no index when there is no Dimension Index Sequence, and refuses,
    with the error of the index sequence length, an index sequence that
    does not hold exactly two items. *)
Theorem getDimensionOrganization_lengths rootElement :
  let orgSq := getFromKey rootElement "x00209221" true in
  let indexSq := getFromKey rootElement "x00209222" true in
  (orgSq = VUndef ->
   getDimensionOrganization rootElement
   = Throw (Error "Unsupported dimension organization sequence length"))
  /\ (forall items, orgSq = VArr items -> length items <> 1%nat ->
      getDimensionOrganization rootElement
      = Throw (Error "Unsupported dimension organization sequence length"))
  /\ (forall item uid, orgSq = VArr [item] ->
      element_value0 item "x00209164" = Ok uid ->
      (indexSq = VUndef ->
       getDimensionOrganization rootElement
       = Ok {| organizations := [cleanString uid]; indices := [] |})
      /\ (forall items, indexSq = VArr items -> length items <> 2%nat ->
          getDimensionOrganization rootElement
          = Throw (Error "Unsupported dimension index sequence length"))).
Proof.
  intros orgSq indexSq. unfold getDimensionOrganization.
  fold orgSq indexSq. split; [by intros ->|]. split.
  - intros items -> Hlen.
    cbn [truthy negb get String.eqb Ascii.eqb Bool.eqb mbind result_bind bind
         strict_eq VInt number_eqb].
    destruct (Z.eqb_spec (Z.of_nat (length items)) 1); [lia|done].
  - intros item uid -> Huid.
    cbn [truthy negb get String.eqb Ascii.eqb Bool.eqb mbind result_bind bind
         strict_eq VInt number_eqb length Z.of_nat Pos.of_succ_nat Z.eqb
         Pos.eqb].
    change (index (VArr [item]) 0) with (Ok item).
    cbn [mbind result_bind bind]. rewrite Huid.
    cbn [mbind result_bind bind]. split.
    + by intros ->.
    + intros items -> Hlen.
      cbn [truthy negb get String.eqb Ascii.eqb Bool.eqb mbind result_bind
           bind strict_eq VInt number_eqb].
      destruct (Z.eqb_spec (Z.of_nat (length items)) 2); [lia|done].
Qed.

End Dimension.

(** The sample tree with a dimension index sequence of two items. *)
Lemma getDimensionOrganization_shape_witness :
  exists d,
    @getDimensionOrganization Sample.env Sample.indexed = Ok d
    /\ length (indices d) = 2%nat
    /\ exists org,
         organizations d = [org]
         /\ (indices d = []
             \/ exists ix0 ix1,
                  indices d = [ix0; ix1]
                  /\ organization ix0 = org /\ organization ix1 = org
                  /\ pointer ix1 = VStr "(0020,0032)").
Proof.
  destruct (@getDimensionOrganization Sample.env Sample.indexed)
    as [d| |] eqn:Ed; try (vm_compute in Ed; discriminate Ed).
  exists d. split; [reflexivity|].
  split; [by vm_compute in Ed; injection Ed as <-|].
  exact (@getDimensionOrganization_shape Sample.env Sample.indexed d Ed).
Defined.

(** The sample tree has one organization and no index sequence. *)
Lemma getDimensionOrganization_lengths_witness :
  @getDimensionOrganization Sample.env Sample.dicomElements
  = Ok {| organizations := [VStr "1.2.3"]; indices := [] |}.
Proof.
  destruct (@getDimensionOrganization_lengths Sample.env Sample.dicomElements)
    as (_ & _ & Hone).
  by apply (Hone (VObj [("x00209164", Sample.element [VStr "1.2.3"])])
              (VStr "1.2.3")).
Defined.

(** ** The spacing reader *)



(** ** More on the frame reader *)






Lemma frameInfoHead_required fs :
  lookup_field "x00209111" fs = VUndef
  \/ lookup_field "x0062000A" fs = VUndef
  \/ lookup_field "x00209113" fs = VUndef ->
  forall r, frameInfoHead (VObj fs) <> Ok r.
Proof.
  intros Hmissing r. unfold frameInfoHead, planePosition, element_value.
  cbn [get]. intros Hh. bind_ok Hh.
  repeat match goal with
    | E : (Ok _ ≫= _) = Ok _ |- _ => cbn [mbind result_bind bind] in E
    end.
  destruct Hmissing as [Hm|[Hm|Hm]]; rewrite Hm in *; discriminate.
Qed.

(** X23: on a per-frame item that lacks the Frame Content Sequence, the
    Segment Identification Sequence or the Plane Position Sequence,
    [getSegmentFrameInfo] returns no frame information and leaves the
    item as it was. *)
Theorem getSegmentFrameInfo_required (fs : list (string * value)) :
  lookup_field "x00209111" fs = VUndef
  \/ lookup_field "x0062000A" fs = VUndef
  \/ lookup_field "x00209113" fs = VUndef ->
  (getSegmentFrameInfo (VObj fs)).1 = VObj fs
  /\ forall info, (getSegmentFrameInfo (VObj fs)).2 <> Ok info.
Proof.
  intros Hmissing. unfold getSegmentFrameInfo.
  pose proof (frameInfoHead_required fs Hmissing) as Hh.
  destruct (frameInfoHead (VObj fs)) as [r| |]; [by destruct (Hh r)|done..].
Qed.




(** An item without Plane Position Sequence. *)
Lemma getSegmentFrameInfo_required_witness :
  (getSegmentFrameInfo (VObj Sample.unplacedFields)).1
  = VObj Sample.unplacedFields.
Proof.
  apply (getSegmentFrameInfo_required Sample.unplacedFields).
  right. right. reflexivity.
Defined.


(** ** Decoding a tree again *)






Section Again.
Context `{Env}.



End Again.


(** ** Spacing and orientation of the volume *)

Lemma checkFrameInfos_bare infos :
  Forall bare infos ->
  forall acc o sp,
  exists acc', checkFrameInfos (acc, o, sp) infos = Ok (acc', o, sp).
Proof.
  induction 1 as [|info infos [Ho Hs] _ IH]; intros acc o sp; [by eexists|].
  cbn [checkFrameInfos]. unfold checkFrameInfo. rewrite Ho, Hs.
  cbn [defined mbind result_bind bind]. apply IH.
Qed.

(** X26: when no frame carries an orientation or a spacing, the volume
    has those of the shared functional group only: over frames at integer
    positions, what [create] does once the frame informations are read
    throws the error of the missing spacing when the shared group gave
    none, and the error of the missing orientation when it gave a spacing
    and no orientation. *)
Theorem assemble_needs_geometry fuel dicomElements pixelBuffer
    (info : headerInfo) (infos : list frameInfo) (ps : list (Z * Z * Z)) :
  imagePosPat <$> infos = pos3 <$> ps -> Forall bare infos ->
  (sharedSpacingValue info = SUndef ->
   assemble fuel dicomElements pixelBuffer info infos
   = Throw (Error "No spacing found for DICOM SEG"))
  /\ (sharedSpacingValue info <> SUndef ->
      sharedOrientationValue info = VUndef ->
      assemble fuel dicomElements pixelBuffer info infos
      = Throw (Error "No imageOrientationPatient found for DICOM SEG")).
Proof.
  intros Hps Hbare.
  destruct (checkFrameInfos_bare infos Hbare [] (sharedOrientationValue info)
              (sharedSpacingValue info)) as [acc Hc].
  destruct (checkFrameInfos_positions_from _ _ _ _ _ _ _ Hc)
    as ((new & -> & Hsub) & _).
  rewrite app_nil_l in Hc. rewrite Hps in Hsub.
  apply sublist_fmap_inv in Hsub as (dd & -> & _).
  assert (exists sorted, array_sort comparePosPat (pos3 <$> dd)
                         = Ok (pos3 <$> sorted)) as [sorted Hsort]
    by (destruct (array_sort_pos3 dd) as (sorted & Hsort & _);
        by exists sorted).
  unfold assemble. rewrite Hc. cbn [mbind result_bind bind].
  rewrite Hsort. cbn [mbind result_bind bind]. split.
  - by intros ->.
  - intros Hsp ->. by destruct (sharedSpacingValue info).
Qed.

(** Two frames without geometry under a header without. *)
Lemma assemble_needs_geometry_witness :
  assemble 1 Sample.dicomElements Sample.pixelBuffer Sample.header
    [Sample.frameAt 10; Sample.frameAt 6]
  = Throw (Error "No spacing found for DICOM SEG").
Proof.
  by apply (assemble_needs_geometry 1%nat Sample.dicomElements
              Sample.pixelBuffer Sample.header
              [Sample.frameAt 10; Sample.frameAt 6]
              [(0, 0, 10); (0, 0, 6)]);
    repeat constructor.
Defined.

(** ** A spacing that is null *)

Lemma frameSpacing_null fs m0 rest :
  element_value (VObj fs) "x00289110" = Ok (VArr (VObj m0 :: rest)) ->
  lookup_field "x00280030" m0 = VUndef ->
  frameSpacing (VObj fs) = Ok SNull.
Proof.
  unfold element_value, frameSpacing. cbn [get mbind result_bind bind].
  intros Hm Hp.
  destruct (lookup_field "x00289110" fs) as [| | | | |m] eqn:Em;
    try (simpl in Hm; discriminate Hm).
  cbn [defined get mbind result_bind bind] in Hm |- *.
  injection Hm as ->.
  cbn [get String.eqb Ascii.eqb Bool.eqb mbind result_bind bind strict_eq VInt
       number_eqb length].
  change (index (VArr (VObj m0 :: rest)) 0) with (Ok (VObj m0)).
  replace (Z.of_nat (S (length rest)) =? 0) with false
    by (symmetry; apply Z.eqb_neq; lia).
  cbn [negb mbind result_bind bind].
  unfold getSpacingFromMeasure. cbn [get mbind result_bind bind].
  by rewrite Hp.
Qed.

(** X27: a Pixel Measures item without Pixel Spacing gives a frame the
    spacing null, which the frame information keeps as if it were a
    spacing; and when the spacing of the shared functional group or of a
    frame is null, what [create] does once the frame informations are
    read returns no image: the null is refused against a spacing, or is
    asked for its third value. *)
Theorem assemble_null_spacing fuel dicomElements pixelBuffer
    (info : headerInfo) (infos : list frameInfo) :
  (forall fs m0 rest,
      element_value (VObj fs) "x00289110" = Ok (VArr (VObj m0 :: rest)) ->
      lookup_field "x00280030" m0 = VUndef ->
      frameSpacing (VObj fs) = Ok SNull)
  /\ (sharedSpacingValue info = SNull
      \/ (exists frame, frame ∈ infos /\ spacing frame = SNull) ->
      forall img,
        assemble fuel dicomElements pixelBuffer info infos <> Ok img).
Proof.
  split; [exact frameSpacing_null|].
  intros Hnull img. unfold assemble.
  destruct (checkFrameInfos _ infos) as [[[pp o'] sp']| |] eqn:Hc;
    cbn [mbind result_bind bind]; try done.
  destruct (checkFrameInfos_spacing _ _ _ _ _ _ _ Hc) as [Hs Hss].
  assert (sp' = SNull) as ->.
  { destruct Hnull as [Hshared|(frame & Hin & Hframe)].
    - rewrite Hs; [done|]. by rewrite Hshared.
    - pose proof (proj1 (Forall_forall _ _) Hss frame Hin) as Hf.
      simpl in Hf. rewrite Hframe in Hf. symmetry. by apply Hf. }
  destruct (array_sort comparePosPat pp); cbn [mbind result_bind bind];
    try done.
  by destruct (negb (defined o')).
Qed.

(** A frame whose spacing is null, with an orientation. *)
Lemma assemble_null_spacing_witness :
  ~ exists img,
      assemble 1 Sample.dicomElements Sample.pixelBuffer Sample.header
        [Sample.frameOf 1 0 Sample.axial SNull]
      = Ok img.
Proof.
  intros [img Ha]. revert Ha.
  apply (assemble_null_spacing 1%nat Sample.dicomElements Sample.pixelBuffer
           Sample.header [Sample.frameOf 1 0 Sample.axial SNull]).
  right. eexists. split; [by left|done].
Defined.
